(** * Lifter progression dashboard: ingestion and query layer

    A shallow embedding of [src/utils/data.js] ([normalizeName],
    [parseDate], [toNumber], [processCsvData]) and of the two memoised
    computations [filtered] and [traces] of [src/App.jsx], together with
    the properties the design document states about them.

    Conventions of the embedding.
    - A JavaScript string is a Rocq [string]; each character stands for
      one code unit below 256 (the Latin-1 block of Unicode).
    - A JavaScript number is an IEEE 754 binary64 value, [spec_float]
      with precision 53 and maximal exponent 1024.
    - [undefined] and [null] are [None].
    - A raw row (the object PapaParse builds with [header: true]) is a
      finite map from column names to cell texts.
    - What [new Date(text)] makes of a free-form text depends on the
      engine; ingestion takes it as the parameter [Date_parse].
    - A time value is an integer number of milliseconds, [None] stands
      for [NaN]; a date kept by [parseDate] is the day number that its
      ten characters denote when [new Date] reads them back.
    - [Array.prototype.sort] is stable, as ECMAScript 2019 requires;
      where the comparison function returns [NaN] the order is left to
      the engine, and statements about the order are made for dates
      that read back as dates or for one fixed array. *)

From Stdlib Require Import ZArith NArith QArith Qabs Lia List Bool.
From Stdlib Require Import Ascii String.
From Stdlib Require Import Floats.SpecFloat.
From Stdlib Require Import Sorting.Permutation Sorting.Sorted.
From stdpp Require Import base gmap strings list.

Local Open Scope string_scope.
Local Open Scope Z_scope.

(** ** JavaScript strings *)

Module JSString.

Definition code (c : ascii) : N := N_of_ascii c.

Definition between (lo hi n : N) : bool := ((lo <=? n) && (n <=? hi))%N.

(** The class [\s] of regular expressions, which is also what
    [String.prototype.trim] removes: TAB, LF, VT, FF, CR, SPACE and
    NO-BREAK SPACE are its members below 256. *)
Definition is_space (c : ascii) : bool :=
  (between 9 13 (code c) || (code c =? 32) || (code c =? 160))%N.

Definition is_digit (c : ascii) : bool := between 48 57 (code c).

Definition is_lower (c : ascii) : bool := between 97 122 (code c).

(** Case folding of one code unit: [A-Z] and the Latin-1 capitals
    U+00C0..U+00DE (U+00D7, the multiplication sign, has no case). *)
Definition lower_char (c : ascii) : ascii :=
  let n := code c in
  if (between 65 90 n || (between 192 222 n && negb (n =? 215)))%N
  then ascii_of_N (n + 32) else c.

Fixpoint map_chars (f : ascii -> ascii) (s : string) : string :=
  match s with
  | EmptyString => EmptyString
  | String c t => String (f c) (map_chars f t)
  end.

Fixpoint keep_chars (p : ascii -> bool) (s : string) : string :=
  match s with
  | EmptyString => EmptyString
  | String c t => if p c then String c (keep_chars p t) else keep_chars p t
  end.

Definition toLowerCase (s : string) : string := map_chars lower_char s.

Fixpoint trimStart (s : string) : string :=
  match s with
  | EmptyString => EmptyString
  | String c t => if is_space c then trimStart t else s
  end.

Fixpoint trimEnd (s : string) : string :=
  match s with
  | EmptyString => EmptyString
  | String c t =>
      match trimEnd t with
      | EmptyString => if is_space c then EmptyString else String c EmptyString
      | t' => String c t'
      end
  end.

Definition trim (s : string) : string := trimEnd (trimStart s).

(** [s.replace(/\s+/g, ' ')]: every maximal run of white space becomes
    one SPACE.  [in_run] tells that the previous character was white
    space, whose run has already been written. *)
Fixpoint collapse_from (in_run : bool) (s : string) : string :=
  match s with
  | EmptyString => EmptyString
  | String c t =>
      if is_space c
      then (if in_run then collapse_from true t
            else String " " (collapse_from true t))
      else String c (collapse_from false t)
  end.

Definition collapse_spaces (s : string) : string := collapse_from false s.

Fixpoint startsWith (p s : string) : bool :=
  match p, s with
  | EmptyString, _ => true
  | String a p', String b s' => Ascii.eqb a b && startsWith p' s'
  | String _ _, EmptyString => false
  end.

(** [s.includes(p)]: [p] occurs in [s] at some position. *)
Fixpoint includes (s p : string) : bool :=
  startsWith p s ||
  match s with
  | EmptyString => false
  | String _ t => includes t p
  end.

Definition is_empty (s : string) : bool :=
  match s with EmptyString => true | _ => false end.

End JSString.

(** ** JavaScript numbers *)

Module JSNumber.
Import JSString.

Definition number : Type := spec_float.

Definition prec : Z := 53.
Definition emax : Z := 1024.

Definition isNaN (x : number) : bool :=
  match x with S754_nan => true | _ => false end.

Definition isFinite (x : number) : bool :=
  match x with S754_zero _ | S754_finite _ _ _ => true | _ => false end.

(** The operator [*] on numbers. *)
Definition mul (x y : number) : number := SFmul prec emax x y.

(** The number nearest to the exact quotient [num / den] (ties to
    even), with the sign [neg]: the division of IEEE 754, which rounds
    once, applied to the two integers. *)
Definition round_quotient (neg : bool) (num den : positive) : number :=
  SFdiv prec emax (S754_finite neg num 0) (S754_finite false den 0).

Fixpoint pow10 (k : nat) : positive :=
  match k with O => 1 | S k' => 10 * pow10 k' end.

(** The number denoted by the decimal [digits * 10^-scale]. *)
Definition decimal_value (neg : bool) (digits : N) (scale : nat) : number :=
  match digits with
  | N0 => S754_zero neg
  | Npos p => round_quotient neg p (pow10 scale)
  end.

(** *** Reading a number: [Number(text)]

    [StringToNumber] of ECMAScript on the texts this program hands to
    it, which are made of the digits, [.] and [-] only: an empty text
    is [+0]; an optional [-] followed by [digits], [digits.],
    [digits.digits] or [.digits] is the nearest number; everything else
    is [NaN]. *)

Definition digit_value (c : ascii) : N := (code c - 48)%N.

Fixpoint digits_value (acc : N) (s : string) : option N :=
  match s with
  | EmptyString => Some acc
  | String c t =>
      if is_digit c then digits_value (10 * acc + digit_value c)%N t else None
  end.

(** The text before the first [.] and, when there is one, the text
    after it. *)
Fixpoint split_dot (s : string) : string * option string :=
  match s with
  | EmptyString => (EmptyString, None)
  | String c t =>
      if Ascii.eqb c "." then (EmptyString, Some t)
      else let '(a, b) := split_dot t in (String c a, b)
  end.

Definition parse_unsigned (s : string) : option (N * nat) :=
  match split_dot s with
  | (ip, None) =>
      if is_empty ip then None
      else match digits_value 0 ip with
           | Some m => Some (m, O)
           | None => None
           end
  | (ip, Some fp) =>
      if is_empty ip && is_empty fp then None
      else match digits_value 0 (ip ++ fp) with
           | Some m => Some (m, String.length fp)
           | None => None
           end
  end.

Definition Number (s : string) : number :=
  match s with
  | EmptyString => S754_zero false
  | String c t =>
      if Ascii.eqb c "-"
      then match parse_unsigned t with
           | Some (m, k) => decimal_value true m k
           | None => S754_nan
           end
      else match parse_unsigned s with
           | Some (m, k) => decimal_value false m k
           | None => S754_nan
           end
  end.

(** *** Writing a number: [x.toFixed(2)] *)

Definition digit_char (d : N) : ascii := ascii_of_N (48 + d).

Fixpoint digits_of (fuel : nat) (n : N) (acc : string) : string :=
  match fuel with
  | O => acc
  | S f =>
      let acc' := String (digit_char (n mod 10)) acc in
      if (n / 10 =? 0)%N then acc' else digits_of f (n / 10)%N acc'
  end.

(** The decimal digits of [n], ["0"] for zero. *)
Definition decimal (n : N) : string :=
  digits_of (S (N.to_nat (N.log2 n))) n EmptyString.

Definition two_digits (r : N) : string :=
  String (digit_char (r / 10)) (String (digit_char (r mod 10)) EmptyString).

(** [m * 2^e >= 10^21] *)
Definition at_least_1e21 (m : positive) (e : Z) : bool :=
  if (0 <=? e)%Z then (10 ^ 21 <=? Zpos m * 2 ^ e)%Z
  else (10 ^ 21 * 2 ^ (- e) <=? Zpos m)%Z.

(** The integer [n] for which [n / 100] is nearest to [m * 2^e]; of
    two such integers, the larger one. *)
Definition nearest_hundredth (m : positive) (e : Z) : N :=
  if (0 <=? e)%Z then Z.to_N (100 * Zpos m * 2 ^ e)
  else Z.to_N ((200 * Zpos m + 2 ^ (- e)) / 2 ^ (1 - e)).

(** The real number [m * 2^e], the magnitude of a finite number. *)
Definition real_value (m : positive) (e : Z) : Q :=
  if (0 <=? e)%Z then inject_Z (Zpos m * 2 ^ e)
  else Zpos m # Z.to_pos (2 ^ (- e)).

(** What [toFixed] returns: a text of digits or, for the numbers it
    hands over to [Number::toString] (the non-finite ones and those of
    magnitude at least 1e21), that text left symbolic. *)
Inductive numtext : Type :=
| Text (s : string)
| ToString (x : number).

Definition toFixed2 (x : number) : numtext :=
  match x with
  | S754_zero _ => Text "0.00"
  | S754_finite neg m e =>
      if at_least_1e21 m e then ToString x
      else
        let n := nearest_hundredth m e in
        let body := decimal (n / 100) ++ "." ++ two_digits (n mod 100) in
        Text (if neg then String "-" body else body)
  | _ => ToString x
  end.

(** Unary [+] on the result of [toFixed].  [Number::toString] writes
    enough digits for the text to be read back as the same number, and
    writes ["NaN"], ["Infinity"] and ["-Infinity"] for the values that
    read back as such. *)
Definition ToNumber (t : numtext) : number :=
  match t with
  | Text s => Number s
  | ToString x => x
  end.

(** The numeric literal [2.20462]. *)
Definition literal_2_20462 : number := Eval vm_compute in Number "2.20462".

End JSNumber.

(** ** JavaScript dates and arrays *)

Module JSDate.

Definition msPerDay : Z := 86400000.

(** [Day(t)] of ECMAScript: the day number of a time value. *)
Definition Day (t : Z) : Z := t / msPerDay.

(** Year, month (1..12) and day of the month of a day number, in the
    proleptic Gregorian calendar, by counting from 0000-03-01 in eras
    of 400 years. *)
Definition civil_from_days (z : Z) : Z * Z * Z :=
  let z' := z + 719468 in
  let era := z' / 146097 in
  let doe := z' - era * 146097 in
  let yoe := (doe - doe / 1460 + doe / 36524 - doe / 146096) / 365 in
  let doy := doe - (365 * yoe + yoe / 4 - yoe / 100) in
  let mp := (5 * doy + 2) / 153 in
  let d := doy - (153 * mp + 2) / 5 + 1 in
  let m := if mp <? 10 then mp + 3 else mp - 9 in
  let y := yoe + era * 400 in
  (if m <=? 2 then y + 1 else y, m, d).

(** [MakeDay]: the day number of a calendar date. *)
Definition days_from_civil (y m d : Z) : Z :=
  let y' := if m <=? 2 then y - 1 else y in
  let era := y' / 400 in
  let yoe := y' - era * 400 in
  let doy := (153 * (if 2 <? m then m - 3 else m + 9) + 2) / 5 + d - 1 in
  let doe := yoe * 365 + yoe / 4 - yoe / 100 + doy in
  era * 146097 + doe - 719468.

(** An ISO date text, as [toISOString().slice(0,10)] produces it, is
    represented by the day number it denotes when [new Date] reads it
    back: a text [YYYY-MM-DD] denotes that day at 00:00 UTC. *)
Definition isodate : Type := Z.

(** [new Date(t).toISOString().slice(0, 10)].  For a year in
    0000..9999 the first ten characters are [YYYY-MM-DD].  Outside of
    it the year is written with a sign and six digits, the first ten
    characters are [+YYYYYY-MM] or [-YYYYYY-MM], and that text denotes
    the first day of the month. *)
Definition toISOString_slice10 (t : Z) : isodate :=
  let '(y, m, _) := civil_from_days (Day t) in
  if (0 <=? y) && (y <=? 9999) then Day t else days_from_civil y m 1.

(** The largest magnitude of a time value: 100,000,000 days. *)
Definition maxTime : Z := 8640000000000000.

(** [TimeClip]: a time value, or [NaN] ([None]) beyond the range of
    [Date]. *)
Definition TimeClip (t : Z) : option Z :=
  if Z.abs t <=? maxTime then Some t else None.

(** [new Date(v).getTime()] for [v] a field [MeetDate], [None] for
    [NaN]: [null] is converted to the number 0, the epoch; a text is
    the day it denotes at 00:00 UTC, and an Invalid Date when that lies
    outside the range of [Date].  The text [-271821-04], which
    [toISOString().slice(0,10)] gives for the first days that a [Date]
    can hold, denotes 1 April, ahead of the first of them. *)
Definition time_of (v : option isodate) : option Z :=
  match v with
  | None => Some 0
  | Some day => TimeClip (day * msPerDay)
  end.

End JSDate.

Module JSArray.

Section Sort.
Context {A : Type}.
Variable comparefn : A -> A -> Z.

Fixpoint insert_sorted (x : A) (l : list A) : list A :=
  match l with
  | [] => [x]
  | y :: t =>
      if comparefn x y <=? 0 then x :: y :: t
      else y :: insert_sorted x t
  end.

(** [Array.prototype.sort(comparefn)], which is stable: elements
    that compare equal keep their order.  Each element is placed in
    front of the already sorted elements that followed it, before
    the first one that is not smaller.  ECMAScript fixes the outcome
    for a consistent comparison only; when the comparison is not
    consistent (it returns [NaN] for some pair) the order is left to
    the engine, and this procedure is one admissible outcome. *)
Definition sort (l : list A) : list A := fold_right insert_sorted [] l.
End Sort.

(** [SortCompare] with a comparison function that returns a number:
    [NaN] ([None]) is taken as [+0]. *)
Definition SortCompare {A : Type} (comparefn : A -> A -> option Z) (a b : A) : Z :=
  match comparefn a b with
  | Some v => v
  | None => 0
  end.

End JSArray.

(** ** [src/utils/data.js] *)

Module Data.
Import JSString JSNumber JSDate.

Definition KG_TO_LB : number := literal_2_20462.

(** The negated class [[^a-z0-9\s]] removes what this keeps. *)
Definition name_char (c : ascii) : bool := is_lower c || is_digit c || is_space c.

Definition normalizeName (name : string) : string :=
  if is_empty name then ""
  else collapse_spaces (keep_chars name_char (toLowerCase (trim name))).

(** The negated class [[^0-9\.\-]] removes what this keeps. *)
Definition numeric_char (c : ascii) : bool :=
  is_digit c || Ascii.eqb c "." || Ascii.eqb c "-".

Definition toNumber (v : option string) : option number :=
  match v with
  | None => None
  | Some s =>
      let n := Number (keep_chars numeric_char s) in
      if isNaN n then None else Some n
  end.

(** A cell is undefined (the column is missing) or a text; the empty
    text is the only falsy text. *)
Definition truthy (v : option string) : bool :=
  match v with
  | Some s => negb (is_empty s)
  | None => false
  end.

(** [a || b] *)
Definition js_or (a b : option string) : option string :=
  if truthy a then a else b.

(** [a || ''], a text whatever [a] is. *)
Definition js_or_text (a : option string) (d : string) : string :=
  match a with
  | Some s => if is_empty s then d else s
  | None => d
  end.

Record LifterRecord : Type := {
  Name : string;
  NameNormalized : string;
  MeetDate : option isodate;
  Equipment : string;
  Federation : string;
  Age : option number;
  BodyweightKg : option number;
  SquatKg : option number;
  BenchKg : option number;
  DeadliftKg : option number;
  TotalKg : option number;
  SquatLb : option number;
  BenchLb : option number;
  DeadliftLb : option number;
  TotalLb : option number
}.

(** [kg != null ? +(kg * KG_TO_LB).toFixed(2) : null] *)
Definition pounds (kg : option number) : option number :=
  match kg with
  | Some k => Some (ToNumber (toFixed2 (mul k KG_TO_LB)))
  | None => None
  end.

Section Ingestion.
(** [new Date(text).getTime()] for a free-form text, [None] when the
    date is invalid (the time value is [NaN]).  Which texts are
    understood depends on the JavaScript engine. *)
Variable Date_parse : string -> option Z.

Definition parseDate (d : option string) : option isodate :=
  if negb (truthy d) then None
  else match d with
       | Some s =>
           match Date_parse s with
           | None => None
           | Some t => Some (toISOString_slice10 t)
           end
       | None => None
       end.

Local Notation "a ||| b" := (js_or a b) (at level 50, left associativity).

(** The body of the function mapped over the rows. *)
Definition row_record (r : gmap string string) : LifterRecord :=
  let name := js_or_text (r !! "Name" ||| r !! "name" ||| r !! "lifter") "" in
  let squat := toNumber (r !! "SquatKg" ||| r !! "squat" ||| r !! "best3sqkg" ||| r !! "best3sq") in
  let bench := toNumber (r !! "BenchKg" ||| r !! "bench" ||| r !! "best3bnkg" ||| r !! "best3bn") in
  let deadlift := toNumber (r !! "DeadliftKg" ||| r !! "deadlift" ||| r !! "best3dlkg" ||| r !! "best3dl") in
  let total := toNumber (r !! "TotalKg" ||| r !! "total" ||| r !! "totalkg") in
  {| Name := name;
     NameNormalized := normalizeName name;
     MeetDate :=
       match parseDate (r !! "MeetDate" ||| r !! "meet_date" ||| r !! "date" ||| r !! "meetdate") with
       | Some d => Some d
       | None => None
       end;
     Equipment := js_or_text (r !! "Equipment" ||| r !! "equipment" ||| r !! "Gear") "";
     Federation := js_or_text (r !! "Federation" ||| r !! "federation") "";
     Age := toNumber (r !! "Age" ||| r !! "age");
     BodyweightKg := toNumber (r !! "BodyweightKg" ||| r !! "bodyweight" ||| r !! "bodywt" ||| r !! "weight");
     SquatKg := squat;
     BenchKg := bench;
     DeadliftKg := deadlift;
     TotalKg := total;
     SquatLb := pounds squat;
     BenchLb := pounds bench;
     DeadliftLb := pounds deadlift;
     TotalLb := pounds total |}.

Definition processCsvData (rows : list (gmap string string)) : list LifterRecord :=
  List.map row_record rows.

End Ingestion.

End Data.

(** ** [src/App.jsx]: the query layer *)

Module App.
Import JSString JSNumber JSDate JSArray Data.

(** The comparison function of the sort,
    [(a,b) => new Date(a.MeetDate) - new Date(b.MeetDate)]: the
    difference of two time values, of which only the sign is used, and
    [NaN] ([None]) when one of the two is an Invalid Date. *)
Definition by_date (a b : LifterRecord) : option Z :=
  match time_of (MeetDate a), time_of (MeetDate b) with
  | Some s, Some t => Some (s - t)
  | _, _ => None
  end.

(** [(r.Equipment || '').toLowerCase().includes('raw')] *)
Definition mentions_raw (r : LifterRecord) : bool :=
  includes (toLowerCase (js_or_text (Some (Equipment r)) "")) "raw".

(** The array [arr] of [filtered] just before it is sorted. *)
Definition survivors (rows : list LifterRecord) (selected equipment : string)
  : list LifterRecord :=
  let arr := List.filter (fun r => String.eqb (Name r) selected) rows in
  if negb (String.eqb equipment "All") then
    if String.eqb equipment "Raw" then List.filter mentions_raw arr
    else List.filter (fun r => negb (mentions_raw r)) arr
  else arr.

Definition filtered (rows : list LifterRecord) (selected equipment : string)
  : list LifterRecord :=
  if is_empty selected then []
  else sort (SortCompare by_date) (survivors rows selected equipment).

Inductive lift : Type := Squat | Bench | Deadlift | Total.

(** The state [lifts], an object with the four keys in this order. *)
Record lifts_state : Type := {
  lifts_Squat : bool;
  lifts_Bench : bool;
  lifts_Deadlift : bool;
  lifts_Total : bool
}.

(** [Object.entries(lifts)] *)
Definition entries (lifts : lifts_state) : list (lift * bool) :=
  [ (Squat, lifts_Squat lifts); (Bench, lifts_Bench lifts);
    (Deadlift, lifts_Deadlift lifts); (Total, lifts_Total lifts) ].

(** [r[lift + unitSuffix]] *)
Definition magnitude (lift_ : lift) (unitSuffix : string) (r : LifterRecord)
  : option number :=
  if String.eqb unitSuffix "Kg" then
    match lift_ with
    | Squat => SquatKg r | Bench => BenchKg r
    | Deadlift => DeadliftKg r | Total => TotalKg r
    end
  else if String.eqb unitSuffix "Lb" then
    match lift_ with
    | Squat => SquatLb r | Bench => BenchLb r
    | Deadlift => DeadliftLb r | Total => TotalLb r
    end
  else None.

Record trace : Type := {
  x : list (option isodate);
  y : list (option number);
  type : string;
  mode : string;
  name : lift
}.

Definition traces (filtered_ : list LifterRecord) (lifts : lifts_state)
  (unit_ : string) : list trace :=
  let active := List.map fst (List.filter (fun kv => snd kv) (entries lifts)) in
  let unitSuffix := if String.eqb unit_ "kg" then "Kg" else "Lb" in
  List.map (fun lift_ =>
    {| x := List.map MeetDate filtered_;
       y := List.map (magnitude lift_ unitSuffix) filtered_;
       type := "scatter";
       mode := "lines+markers";
       name := lift_ |}) active.

End App.

(** ** Vocabulary of the statements *)

Module Reading.
Import JSString JSNumber JSDate Data App.

(** The fields of a record that are read from the row. *)
Inductive field : Type :=
| FName | FMeetDate | FEquipment | FFederation | FAge | FBodyweightKg
| FSquatKg | FBenchKg | FDeadliftKg | FTotalKg.

(** The column names consulted for each field, in the order of the
    chain of [||] that [processCsvData] writes for it. *)
Definition aliases (f : field) : list string :=
  match f with
  | FName => ["Name"; "name"; "lifter"]
  | FMeetDate => ["MeetDate"; "meet_date"; "date"; "meetdate"]
  | FEquipment => ["Equipment"; "equipment"; "Gear"]
  | FFederation => ["Federation"; "federation"]
  | FAge => ["Age"; "age"]
  | FBodyweightKg => ["BodyweightKg"; "bodyweight"; "bodywt"; "weight"]
  | FSquatKg => ["SquatKg"; "squat"; "best3sqkg"; "best3sq"]
  | FBenchKg => ["BenchKg"; "bench"; "best3bnkg"; "best3bn"]
  | FDeadliftKg => ["DeadliftKg"; "deadlift"; "best3dlkg"; "best3dl"]
  | FTotalKg => ["TotalKg"; "total"; "totalkg"]
  end.

Inductive value : Type :=
| VText (s : string)
| VDate (d : option isodate)
| VNumber (n : option number).

Definition field_of (f : field) (o : LifterRecord) : value :=
  match f with
  | FName => VText (Name o)
  | FMeetDate => VDate (MeetDate o)
  | FEquipment => VText (Equipment o)
  | FFederation => VText (Federation o)
  | FAge => VNumber (Age o)
  | FBodyweightKg => VNumber (BodyweightKg o)
  | FSquatKg => VNumber (SquatKg o)
  | FBenchKg => VNumber (BenchKg o)
  | FDeadliftKg => VNumber (DeadliftKg o)
  | FTotalKg => VNumber (TotalKg o)
  end.

(** The value of a field whose cell is [cell]. *)
Definition coerce (Date_parse : string -> option Z) (f : field)
  (cell : option string) : value :=
  match f with
  | FName | FEquipment | FFederation => VText (js_or_text cell "")
  | FMeetDate => VDate (parseDate Date_parse cell)
  | _ => VNumber (toNumber cell)
  end.

(** The default of a field: [''] for a text, [null] otherwise. *)
Definition default_of (f : field) : value :=
  match f with
  | FName | FEquipment | FFederation => VText ""
  | FMeetDate => VDate None
  | _ => VNumber None
  end.

(** The cell under the first of the keys [ks] that the row has. *)
Fixpoint first_present (r : gmap string string) (ks : list string) : option string :=
  match ks with
  | [] => None
  | k :: t =>
      match r !! k with
      | Some v => Some v
      | None => first_present r t
      end
  end.

(** The cell under the first of the keys [ks] that the row has with a
    text that is not empty. *)
Fixpoint first_nonempty (r : gmap string string) (ks : list string) : option string :=
  match ks with
  | [] => None
  | k :: t =>
      match r !! k with
      | Some v => if is_empty v then first_nonempty r t else Some v
      | None => first_nonempty r t
      end
  end.

(** The texts that [Number] reads as a number other than [NaN], the
    empty text apart: an optional [-] and then digits with at most one
    [.], of which at least one digit. *)
Definition numeral (s : string) : bool :=
  match s with
  | EmptyString => false
  | String c t =>
      match parse_unsigned (if Ascii.eqb c "-" then t else s) with
      | Some _ => true
      | None => false
      end
  end.

(** A text made of [a-z], [0-9] and single spaces; [after_space] tells
    that a space stands just before it. *)
Fixpoint tidy (after_space : bool) (s : string) : bool :=
  match s with
  | EmptyString => true
  | String c t =>
      if Ascii.eqb c " " then negb after_space && tidy true t
      else (is_lower c || is_digit c) && tidy false t
  end.

(** Comparing by a numeric key, as [by_date] does with the time value
    of valid dates, and the order in which it leaves an array. *)
Definition by_key {A : Type} (key : A -> Z) (a b : A) : Z := key a - key b.
Definition key_le {A : Type} (key : A -> Z) (a b : A) : Prop := key a <= key b.

(** The date of the record reads back as a date: [new Date(r.MeetDate)]
    is not an Invalid Date. *)
Definition readable (r : LifterRecord) : bool :=
  match time_of (MeetDate r) with
  | Some _ => true
  | None => false
  end.

(** The time value that the sort gives a record with a readable
    date. *)
Definition date_key (r : LifterRecord) : Z :=
  match time_of (MeetDate r) with
  | Some t => t
  | None => 0
  end.

(** [new Date(a) <= new Date(b)] for two fields [MeetDate]: it does not
    hold when one of the two is an Invalid Date. *)
Definition date_le (a b : option isodate) : Prop :=
  match time_of a, time_of b with
  | Some s, Some t => s <= t
  | _, _ => False
  end.

Definition dated_le (a b : LifterRecord) : Prop := date_le (MeetDate a) (MeetDate b).

(** The kilogram and the pound field of a lift. *)
Definition kg_of (l : lift) (o : LifterRecord) : option number := magnitude l "Kg" o.
Definition lb_of (l : lift) (o : LifterRecord) : option number := magnitude l "Lb" o.

(** An engine that understands the texts [YYYY-MM-DD] only, for the
    examples. *)
Definition two (a b : ascii) : option Z :=
  if is_digit a && is_digit b
  then Some (Z.of_N (10 * digit_value a + digit_value b))
  else None.

Definition Date_parse_iso (s : string) : option Z :=
  match s with
  | String y1 (String y2 (String y3 (String y4 (String "-"
      (String m1 (String m2 (String "-" (String d1 (String d2 EmptyString))))))))) =>
      match two y1 y2, two y3 y4, two m1 m2, two d1 d2 with
      | Some a, Some b, Some m, Some d =>
          if (1 <=? m) && (m <=? 12) && (1 <=? d) && (d <=? 31)
          then Some (days_from_civil (100 * a + b) m d * msPerDay)
          else None
      | _, _, _, _ => None
      end
  | _ => None
  end.

Definition is_numeric (f : field) : bool :=
  match f with
  | FName | FMeetDate | FEquipment | FFederation => false
  | _ => true
  end.

Fixpoint repeat_char (c : ascii) (n : nat) : string :=
  match n with
  | O => EmptyString
  | S n' => String c (repeat_char c n')
  end.

(** A cell of 309 nines. *)
Definition cell_309_nines : string := repeat_char "9" 309.

(** Rows of the examples. *)
Definition row_bad_squat : gmap string string :=
  {[ "Name" := ""; "SquatKg" := "bad" ]}.

Definition row_two_names : gmap string string :=
  {[ "Name" := ""; "name" := "Bob" ]}.

Definition row_jane_2020 : gmap string string :=
  {[ "Name" := "Jane Doe"; "SquatKg" := "100"; "MeetDate" := "2020-01-05" ]}.

Definition row_jane_2021 : gmap string string :=
  {[ "Name" := "Jane Doe"; "SquatKg" := "105"; "MeetDate" := "2021-03-10" ]}.

Definition row_ann_1970 : gmap string string :=
  {[ "Name" := "Ann"; "Equipment" := "Raw"; "MeetDate" := "1970-01-02" ]}.

Definition row_ann_undated : gmap string string :=
  {[ "Name" := "Ann"; "Equipment" := "Single-ply"; "MeetDate" := "n/a" ]}.

Definition row_ann_1969 : gmap string string :=
  {[ "Name" := "Ann"; "Equipment" := "RAW"; "MeetDate" := "1969-12-31" ]}.

Definition records_ann : list LifterRecord :=
  processCsvData Date_parse_iso [row_ann_1970; row_ann_undated; row_ann_1969].

(** The state [lifts] when the page opens. *)
Definition initial_lifts : lifts_state :=
  {| lifts_Squat := true; lifts_Bench := true;
     lifts_Deadlift := true; lifts_Total := false |}.

End Reading.

(** ** [src/App.jsx]: the list of names and the lift switches *)

Module Selection.
Import JSString JSNumber JSDate JSArray Data App Reading.

(** [new Set(l)], whose iteration order is the order in which the
    values were first added; [seen] holds the values already in the
    set. *)
Fixpoint set_add_all (seen l : list string) : list string :=
  match l with
  | [] => seen
  | v :: t =>
      if existsb (String.eqb v) seen then set_add_all seen t
      else set_add_all (seen ++ [v]) t
  end.

(** [Array.from(new Set(l))] *)
Definition Array_from_Set (l : list string) : list string := set_add_all [] l.

(** The comparison of [sort()] without a comparison function: texts
    are compared code unit by code unit. *)
Definition default_compare (a b : string) : Z :=
  match String.compare a b with
  | Lt => -1
  | Eq => 0
  | Gt => 1
  end.

(** [Array.from(new Set(rows.map(r => r.Name).filter(Boolean))).sort()] *)
Definition names (rows : list LifterRecord) : list string :=
  sort default_compare
    (Array_from_Set
       (List.filter (fun n => negb (is_empty n)) (List.map Name rows))).

(** [setLifts(s => ({...s, [k]: checked}))], with [k] one of the keys
    of [lifts]. *)
Definition set_lift (k : lift) (checked : bool) (s : lifts_state) : lifts_state :=
  match k with
  | Squat =>
      {| lifts_Squat := checked; lifts_Bench := lifts_Bench s;
         lifts_Deadlift := lifts_Deadlift s; lifts_Total := lifts_Total s |}
  | Bench =>
      {| lifts_Squat := lifts_Squat s; lifts_Bench := checked;
         lifts_Deadlift := lifts_Deadlift s; lifts_Total := lifts_Total s |}
  | Deadlift =>
      {| lifts_Squat := lifts_Squat s; lifts_Bench := lifts_Bench s;
         lifts_Deadlift := checked; lifts_Total := lifts_Total s |}
  | Total =>
      {| lifts_Squat := lifts_Squat s; lifts_Bench := lifts_Bench s;
         lifts_Deadlift := lifts_Deadlift s; lifts_Total := checked |}
  end.

(** [lifts[k]] *)
Definition lift_on (k : lift) (s : lifts_state) : bool :=
  match k with
  | Squat => lifts_Squat s
  | Bench => lifts_Bench s
  | Deadlift => lifts_Deadlift s
  | Total => lifts_Total s
  end.

(** The position of a lift among the keys of [lifts]. *)
Definition lift_rank (k : lift) : Z :=
  match k with Squat => 0 | Bench => 1 | Deadlift => 2 | Total => 3 end.

Definition lift_eqb (a b : lift) : bool := lift_rank a =? lift_rank b.

(** Every column name that [processCsvData] reads. *)
Definition known_columns : list string :=
  List.concat (List.map aliases
    [FName; FMeetDate; FEquipment; FFederation; FAge; FBodyweightKg;
     FSquatKg; FBenchKg; FDeadliftKg; FTotalKg]).

(** The numeric fields of a record. *)
Definition numeric_fields (o : LifterRecord) : list (option number) :=
  [Age o; BodyweightKg o; SquatKg o; BenchKg o; DeadliftKg o; TotalKg o;
   SquatLb o; BenchLb o; DeadliftLb o; TotalLb o].

(** A field that holds [NaN]. *)
Definition holds_NaN (v : option number) : bool :=
  match v with
  | Some x => isNaN x
  | None => false
  end.

(** The test a record passes to be in the result of [filtered]: the
    name filter, and the equipment filter that is switched on. *)
Definition passes (selected equipment : string) (r : LifterRecord) : bool :=
  String.eqb (Name r) selected &&
  (if negb (String.eqb equipment "All") then
     if String.eqb equipment "Raw" then mentions_raw r
     else negb (mentions_raw r)
   else true).

(** The records that have the same time value as [r] in the sort. *)
Definition same_date (r o : LifterRecord) : bool :=
  match time_of (MeetDate o), time_of (MeetDate r) with
  | Some s, Some t => s =? t
  | _, _ => false
  end.

(** The text does not begin with white space. *)
Definition no_space_ahead (s : string) : bool :=
  match s with
  | EmptyString => true
  | String c _ => negb (is_space c)
  end.

(** Two meets of Jane Doe on one day, after a later one. *)
Definition row_jane_2020_second : gmap string string :=
  {[ "Name" := "Jane Doe"; "SquatKg" := "102.5"; "MeetDate" := "2020-01-05" ]}.

Definition records_jane : list LifterRecord :=
  processCsvData Date_parse_iso [row_jane_2021; row_jane_2020; row_jane_2020_second].

Definition records_jane_in_order : list LifterRecord :=
  processCsvData Date_parse_iso [row_jane_2020; row_jane_2021].

(** An engine for the examples that understands, besides [YYYY-MM-DD],
    a year written with a sign and six digits, as in [-271821-04-20]. *)
Definition six (a b c d e f : ascii) : option Z :=
  match two a b, two c d, two e f with
  | Some x, Some y, Some z => Some (10000 * x + 100 * y + z)
  | _, _, _ => None
  end.

Definition Date_parse_expanded (s : string) : option Z :=
  match s with
  | String sg (String y1 (String y2 (String y3 (String y4 (String y5 (String y6
      (String "-" (String m1 (String m2 (String "-" (String d1 (String d2
         EmptyString)))))))))))) =>
      match six y1 y2 y3 y4 y5 y6, two m1 m2, two d1 d2 with
      | Some y, Some m, Some d =>
          if (Ascii.eqb sg "+" || Ascii.eqb sg "-")
             && (1 <=? m) && (m <=? 12) && (1 <=? d) && (d <=? 31)
          then TimeClip (days_from_civil (if Ascii.eqb sg "-" then - y else y) m d
                         * msPerDay)
          else None
      | _, _, _ => None
      end
  | _ => Date_parse_iso s
  end.

(** Three meets of Ann, the second on the first day that a [Date] can
    hold. *)
Definition row_ann_2020 : gmap string string :=
  {[ "Name" := "Ann"; "Equipment" := "Raw"; "MeetDate" := "2020-01-05" ]}.

Definition row_ann_first_day : gmap string string :=
  {[ "Name" := "Ann"; "Equipment" := "Single-ply"; "MeetDate" := "-271821-04-20" ]}.

Definition row_ann_1999 : gmap string string :=
  {[ "Name" := "Ann"; "Equipment" := "Raw"; "MeetDate" := "1999-01-01" ]}.

(** [s.includes(c)] for a single character. *)
Fixpoint has_char (c : ascii) (s : string) : bool :=
  match s with
  | EmptyString => false
  | String x t => Ascii.eqb x c || has_char c t
  end.

End Selection.

(** Destructs every cell the goal looks up in the row. *)
Ltac case_cells :=
  repeat match goal with
    | |- context [lookup ?k ?m] => destruct (lookup k m) as [[|? ?]|]; cbn
    end.

(** Unfolds the field of a record made from a row, down to the cells. *)
Ltac unfold_fields :=
  cbn [Reading.aliases Reading.first_nonempty Reading.field_of Data.row_record
       Reading.coerce Reading.default_of Reading.is_numeric
       Data.Name Data.MeetDate Data.Equipment Data.Federation Data.Age
       Data.BodyweightKg Data.SquatKg Data.BenchKg Data.DeadliftKg Data.TotalKg].

(** Splits an [ascii] into its 256 cases and decides each by
    computation. *)
Ltac by_cases_on_char c :=
  destruct c as [[] [] [] [] [] [] [] []]; vm_compute; intros H;
  first [discriminate H | now left | now right
        | split; [discriminate | reflexivity]].

(** * Properties *)

(** ** Texts *)

Section StringFacts.
Import JSString.

Lemma append_cons (x : ascii) (a b : string) :
  (String x a ++ b)%string = String x (a ++ b).
Proof. reflexivity. Qed.

Lemma append_assoc (a b c : string) : ((a ++ b) ++ c = a ++ (b ++ c))%string.
Proof.
  induction a as [|x a IH]; [reflexivity|].
  rewrite !append_cons, IH. reflexivity.
Qed.

Lemma append_empty_r (a : string) : (a ++ "")%string = a.
Proof.
  induction a as [|x a IH]; [reflexivity|].
  rewrite append_cons, IH. reflexivity.
Qed.

Lemma length_append (a b : string) :
  String.length (a ++ b) = (String.length a + String.length b)%nat.
Proof.
  induction a as [|c a IH]; [reflexivity|].
  rewrite append_cons. cbn [String.length]. rewrite IH. reflexivity.
Qed.

End StringFacts.

(** ** Rounding to binary64 *)

Section Rounding.
Import JSNumber.

Lemma shr_1_m (mrs : shr_record) :
  0 <= shr_m mrs -> shr_m (shr_1 mrs) = shr_m mrs / 2.
Proof.
  destruct mrs as [m r s]. cbn [shr_m]. intros Hm.
  destruct m as [|p|p]; [reflexivity| |lia].
  destruct p as [p|p|]; cbn [shr_1 shr_m].
  - apply Z.div_unique with 1; lia.
  - apply Z.div_unique with 0; lia.
  - reflexivity.
Qed.

Lemma iter_shr_1_m (p : positive) (mrs : shr_record) :
  0 <= shr_m mrs ->
  shr_m (SpecFloat.iter_pos shr_1 p mrs) = shr_m mrs / 2 ^ Zpos p.
Proof.
  revert mrs. induction p as [p IH|p IH|]; intros mrs Hm; cbn [SpecFloat.iter_pos].
  - assert (H1 : 0 <= shr_m (shr_1 mrs)).
    { rewrite shr_1_m by exact Hm. apply Z.div_pos; lia. }
    assert (H2 : 0 <= shr_m (SpecFloat.iter_pos shr_1 p (shr_1 mrs))).
    { rewrite IH by exact H1. apply Z.div_pos; lia. }
    rewrite IH by exact H2. rewrite IH by exact H1. rewrite shr_1_m by exact Hm.
    rewrite !Z.div_div by lia.
    f_equal. replace (Zpos p~1) with (1 + Zpos p + Zpos p) by lia.
    rewrite !Z.pow_add_r by lia. lia.
  - assert (H2 : 0 <= shr_m (SpecFloat.iter_pos shr_1 p mrs)).
    { rewrite IH by exact Hm. apply Z.div_pos; lia. }
    rewrite IH by exact H2. rewrite IH by exact Hm.
    rewrite Z.div_div by lia.
    f_equal. replace (Zpos p~0) with (Zpos p + Zpos p) by lia.
    rewrite Z.pow_add_r by lia. lia.
  - rewrite shr_1_m by exact Hm. reflexivity.
Qed.

Lemma shr_record_of_loc_m (m : Z) (l : location) :
  shr_m (shr_record_of_loc m l) = m.
Proof. destruct l as [|[]]; reflexivity. Qed.

(** What [shr_fexp] does to the mantissa and the exponent. *)
Lemma shr_fexp_spec (m e : Z) (l : location) :
  0 <= m ->
  let e' := Z.max e (fexp prec emax (Zdigits2 m + e)) in
  snd (shr_fexp prec emax m e l) = e'
  /\ shr_m (fst (shr_fexp prec emax m e l)) = m / 2 ^ (e' - e).
Proof.
  intros Hm e'. subst e'. unfold shr_fexp, shr.
  set (f := fexp prec emax (Zdigits2 m + e)).
  destruct (f - e) as [|p|p] eqn:E; cbn [fst snd].
  - rewrite shr_record_of_loc_m. replace (Z.max e f) with e by lia.
    rewrite Z.sub_diag, Z.div_1_r. auto.
  - replace (Z.max e f) with (e + Zpos p) by lia. split; [reflexivity|].
    rewrite iter_shr_1_m by (rewrite shr_record_of_loc_m; exact Hm).
    rewrite shr_record_of_loc_m. f_equal. f_equal. lia.
  - rewrite shr_record_of_loc_m. replace (Z.max e f) with e by lia.
    rewrite Z.sub_diag, Z.div_1_r. auto.
Qed.

Lemma round_nearest_even_bounds (m : Z) (l : location) :
  m <= round_nearest_even m l <= m + 1.
Proof.
  unfold round_nearest_even. destruct l as [|[]]; try lia.
  destruct (Z.even m); lia.
Qed.

Lemma digits2_pos_bounds (p : positive) :
  2 ^ (Zpos (digits2_pos p) - 1) <= Zpos p < 2 ^ Zpos (digits2_pos p).
Proof.
  induction p as [p IH|p IH|]; cbn [digits2_pos].
  - rewrite Pos2Z.inj_succ.
    replace (Z.succ (Zpos (digits2_pos p)) - 1) with (1 + (Zpos (digits2_pos p) - 1)) by lia.
    rewrite Z.pow_succ_r by lia. rewrite Z.pow_add_r by lia. lia.
  - rewrite Pos2Z.inj_succ.
    replace (Z.succ (Zpos (digits2_pos p)) - 1) with (1 + (Zpos (digits2_pos p) - 1)) by lia.
    rewrite Z.pow_succ_r by lia. rewrite Z.pow_add_r by lia. lia.
  - cbn. lia.
Qed.

Lemma Zdigits2_nonneg (m : Z) : 0 <= Zdigits2 m.
Proof. destruct m; cbn; lia. Qed.

Lemma Zdigits2_le (m k : Z) : 0 <= m -> 0 <= k -> m < 2 ^ k -> Zdigits2 m <= k.
Proof.
  intros Hm Hk Hlt. destruct m as [|p|p]; cbn [Zdigits2]; [lia| |lia].
  pose proof (digits2_pos_bounds p) as [Hlo _].
  destruct (Z_le_gt_dec (Zpos (digits2_pos p)) k) as [H|H]; [exact H|exfalso].
  assert (2 ^ k <= 2 ^ (Zpos (digits2_pos p) - 1)) by (apply Z.pow_le_mono_r; lia).
  lia.
Qed.

Lemma Zdigits2_gt (m : Z) : 0 <= m -> m < 2 ^ Zdigits2 m.
Proof.
  intros Hm. destruct m as [|p|p]; cbn [Zdigits2]; [cbn; lia| |lia].
  apply digits2_pos_bounds.
Qed.

Lemma fexp_eq (x : Z) : fexp prec emax x = Z.max (x - 53) (-1074).
Proof. reflexivity. Qed.

(** The shape of a rounded result: the mantissa and exponent after the
    second normalisation. *)
Lemma binary_round_aux_shape (s : bool) (mx ex : Z) (l : location) :
  0 <= mx ->
  exists m1 m2 m3 e1 e3,
    e1 = Z.max ex (fexp prec emax (Zdigits2 mx + ex))
    /\ m1 = mx / 2 ^ (e1 - ex)
    /\ m1 <= m2 <= m1 + 1
    /\ e3 = Z.max e1 (fexp prec emax (Zdigits2 m2 + e1))
    /\ m3 = m2 / 2 ^ (e3 - e1)
    /\ binary_round_aux prec emax s mx ex l =
       match m3 with
       | Z0 => S754_zero s
       | Zpos m => if e3 <=? emax - prec then S754_finite s m e3 else S754_infinity s
       | Zneg _ => S754_nan
       end.
Proof.
  intros Hmx. unfold binary_round_aux.
  pose proof (shr_fexp_spec mx ex l Hmx) as [He1 Hm1].
  destruct (shr_fexp prec emax mx ex l) as [mrs1 e1]. cbn [fst snd] in He1, Hm1.
  set (m2 := round_nearest_even (shr_m mrs1) (loc_of_shr_record mrs1)).
  pose proof (round_nearest_even_bounds (shr_m mrs1) (loc_of_shr_record mrs1)) as Hm2.
  fold m2 in Hm2.
  assert (H1 : 0 <= shr_m mrs1) by (rewrite Hm1; apply Z.div_pos; lia).
  assert (H2 : 0 <= m2) by lia.
  pose proof (shr_fexp_spec m2 e1 loc_Exact H2) as [He3 Hm3].
  destruct (shr_fexp prec emax m2 e1 loc_Exact) as [mrs3 e3]. cbn [fst snd] in He3, Hm3.
  exists (shr_m mrs1), m2, (shr_m mrs3), e1, e3.
  rewrite <- He1 in Hm1. rewrite <- He3 in Hm3. repeat split; auto; try lia.
Qed.

Lemma binary_round_aux_not_nan (s : bool) (mx ex : Z) (l : location) :
  0 <= mx -> isNaN (binary_round_aux prec emax s mx ex l) = false.
Proof.
  intros Hmx.
  destruct (binary_round_aux_shape s mx ex l Hmx)
    as (m1 & m2 & m3 & e1 & e3 & He1 & Hm1 & Hm2 & He3 & Hm3 & ->).
  assert (0 <= m1) by (rewrite Hm1; apply Z.div_pos; lia).
  assert (0 <= m3) by (rewrite Hm3; apply Z.div_pos; lia).
  destruct m3; [reflexivity| |lia].
  destruct (e3 <=? emax - prec); reflexivity.
Qed.

(** A value below the largest number plus half a unit in its last
    place is rounded to a finite number. *)
Lemma binary_round_aux_finite (s : bool) (mx ex : Z) (l : location) :
  0 <= mx -> ex <= 971 ->
  mx < (2 ^ 53 - 1) * 2 ^ (971 - ex) ->
  isFinite (binary_round_aux prec emax s mx ex l) = true.
Proof.
  intros Hmx Hex Hlt.
  destruct (binary_round_aux_shape s mx ex l Hmx)
    as (m1 & m2 & m3 & e1 & e3 & He1 & Hm1 & Hm2 & He3 & Hm3 & ->).
  rewrite fexp_eq in He1, He3.
  assert (Hp : 0 < 2 ^ (971 - ex)) by (apply Z.pow_pos_nonneg; lia).
  assert (Hd : Zdigits2 mx <= 1024 - ex).
  { apply Zdigits2_le; [lia|lia|].
    replace (1024 - ex) with (53 + (971 - ex)) by lia.
    rewrite Z.pow_add_r by lia. nia. }
  assert (He1' : e1 <= 971) by lia.
  assert (Hm1' : m1 < 2 ^ 53).
  { rewrite Hm1. apply Z.div_lt_upper_bound; [apply Z.pow_pos_nonneg; lia|].
    rewrite <- Z.pow_add_r by lia.
    eapply Z.lt_le_trans; [apply Zdigits2_gt; exact Hmx|].
    apply Z.pow_le_mono_r; lia. }
  assert (H1 : 0 <= m1) by (rewrite Hm1; apply Z.div_pos; lia).
  assert (Hd2 : Zdigits2 m2 <= 54).
  { apply Zdigits2_le; [lia|lia|]. change (2 ^ 54) with (2 * 2 ^ 53). lia. }
  assert (He3' : e3 <= 971).
  { destruct (Z_le_gt_dec e1 970) as [Hle|Hgt]; [lia|].
    assert (E : e1 = 971) by lia.
    assert (m1 < 2 ^ 53 - 1).
    { rewrite Hm1, E. apply Z.div_lt_upper_bound; [exact Hp|]. lia. }
    assert (Zdigits2 m2 <= 53) by (apply Zdigits2_le; lia).
    lia. }
  assert (0 <= m3) by (rewrite Hm3; apply Z.div_pos; lia).
  destruct m3; [reflexivity| |lia].
  replace (e3 <=? emax - prec) with true; [reflexivity|].
  symmetry. apply Z.leb_le. unfold emax, prec. lia.
Qed.

Lemma round_quotient_shape (neg : bool) (p d : positive) :
  exists q e l,
    round_quotient neg p d = binary_round_aux prec emax neg q e l
    /\ e <= 0 /\ 0 <= q <= Zpos p * 2 ^ (- e).
Proof.
  unfold round_quotient, SFdiv, SFdiv_core_binary. rewrite xorb_false_r.
  set (e := Z.min (fexp prec emax (Zdigits2 (Zpos p) + 0 - (Zdigits2 (Zpos d) + 0))) (0 - 0)).
  assert (He : e <= 0) by (subst e; lia).
  set (m' := match 0 - 0 - e with
             | Zpos _ => Z.shiftl (Zpos p) (0 - 0 - e)
             | Z0 => Zpos p
             | Zneg _ => 0
             end).
  assert (Hm' : m' = Zpos p * 2 ^ (- e)).
  { subst m'. replace (0 - 0 - e) with (- e) by lia.
    destruct (- e) as [|k|k] eqn:E; [cbn; lia | | lia].
    rewrite Z.shiftl_mul_pow2 by lia. reflexivity. }
  pose proof (Z_div_mod m' (Zpos d) eq_refl) as Hdiv.
  destruct (Z.div_eucl m' (Zpos d)) as [q r].
  exists q, e, (new_location (Zpos d) r). split; [reflexivity|]. split; [exact He|].
  assert (0 < 2 ^ (- e)) by (apply Z.pow_pos_nonneg; lia).
  rewrite <- Hm'. nia.
Qed.

Lemma round_quotient_not_nan (neg : bool) (p d : positive) :
  isNaN (round_quotient neg p d) = false.
Proof.
  destruct (round_quotient_shape neg p d) as (q & e & l & -> & _ & Hq & _).
  apply binary_round_aux_not_nan. exact Hq.
Qed.

Lemma round_quotient_finite (neg : bool) (p d : positive) :
  Zpos p < 10 ^ 308 -> isFinite (round_quotient neg p d) = true.
Proof.
  intros Hp.
  destruct (round_quotient_shape neg p d) as (q & e & l & -> & He & Hq0 & Hq).
  apply binary_round_aux_finite; [exact Hq0 | lia |].
  assert (H2 : 0 < 2 ^ (- e)) by (apply Z.pow_pos_nonneg; lia).
  replace (971 - e) with (971 + - e) by lia.
  rewrite Z.pow_add_r by lia. rewrite Z.mul_assoc.
  assert (Hc : 10 ^ 308 <= (2 ^ 53 - 1) * 2 ^ 971) by (apply Z.leb_le; vm_compute; reflexivity).
  revert Hp Hc Hq H2.
  generalize (10 ^ 308) ((2 ^ 53 - 1) * 2 ^ 971) (2 ^ (- e)) (Zpos p).
  intros B C P x Hp Hc Hq H2.
  apply Z.le_lt_trans with (x * P); [exact Hq|].
  apply Z.lt_le_trans with (B * P); [apply Z.mul_lt_mono_pos_r; assumption|].
  apply Z.mul_le_mono_nonneg_r; lia.
Qed.

Lemma decimal_value_not_nan (neg : bool) (m : N) (k : nat) :
  isNaN (decimal_value neg m k) = false.
Proof.
  destruct m; [reflexivity|]. apply round_quotient_not_nan.
Qed.

Lemma decimal_value_finite (neg : bool) (m : N) (k : nat) :
  Z.of_N m < 10 ^ 308 -> isFinite (decimal_value neg m k) = true.
Proof.
  destruct m as [|p]; [reflexivity|]. intros H.
  apply round_quotient_finite. exact H.
Qed.

End Rounding.

(** ** Reading and writing numbers *)

Section NumberTexts.
Import JSString JSNumber Reading.

Lemma is_digit_value (c : ascii) :
  is_digit c = true -> (digit_value c <= 9)%N /\ digit_char (digit_value c) = c.
Proof. by_cases_on_char c. Qed.

Lemma digits_value_bound (s : string) (acc m : N) :
  digits_value acc s = Some m ->
  Z.of_N m < (Z.of_N acc + 1) * 10 ^ Z.of_nat (String.length s).
Proof.
  revert acc. induction s as [|c t IH]; intros acc; cbn [digits_value String.length].
  - intros [= <-]. cbn. lia.
  - destruct (is_digit c) eqn:Ec; [|discriminate].
    intros H. apply IH in H. apply is_digit_value in Ec as [Ec _].
    rewrite Nat2Z.inj_succ, Z.pow_succ_r by lia.
    assert (0 < 10 ^ Z.of_nat (String.length t)) by (apply Z.pow_pos_nonneg; lia).
    nia.
Qed.

Lemma split_dot_length (s : string) :
  String.length s =
  (String.length (fst (split_dot s)) +
   match snd (split_dot s) with
   | Some fp => S (String.length fp)
   | None => 0
   end)%nat.
Proof.
  induction s as [|c t IH]; cbn [split_dot]; [reflexivity|].
  destruct (Ascii.eqb c "."); [reflexivity|].
  destruct (split_dot t) as [a b]. cbn [fst snd String.length] in *. lia.
Qed.

Lemma parse_unsigned_bound (s : string) (m : N) (k : nat) :
  parse_unsigned s = Some (m, k) ->
  Z.of_N m < 10 ^ Z.of_nat (String.length s).
Proof.
  unfold parse_unsigned. pose proof (split_dot_length s) as Hl.
  destruct (split_dot s) as [ip [fp|]]; cbn [fst snd] in Hl.
  - destruct (is_empty ip && is_empty fp); [discriminate|].
    destruct (digits_value 0 (ip ++ fp)) as [m'|] eqn:E; [|discriminate].
    intros [= <- <-]. apply digits_value_bound in E.
    rewrite length_append in E. cbn in E. rewrite Z.mul_1_l in E.
    eapply Z.lt_le_trans; [exact E|]. apply Z.pow_le_mono_r; lia.
  - destruct (is_empty ip); [discriminate|].
    destruct (digits_value 0 ip) as [m'|] eqn:E; [|discriminate].
    intros [= <- <-]. apply digits_value_bound in E.
    cbn in E. rewrite Z.mul_1_l in E.
    eapply Z.lt_le_trans; [exact E|]. apply Z.pow_le_mono_r; lia.
Qed.

Lemma Number_finite (s : string) :
  (String.length s <= 308)%nat ->
  isNaN (Number s) = false -> isFinite (Number s) = true.
Proof.
  intros Hl. unfold Number. destruct s as [|c t]; [reflexivity|].
  assert (Hpow : forall k : nat, (k <= 308)%nat -> 10 ^ Z.of_nat k <= 10 ^ 308).
  { intros k Hk. apply Z.pow_le_mono_r; lia. }
  cbn [String.length] in Hl.
  destruct (Ascii.eqb c "-").
  - destruct (parse_unsigned t) as [[m k]|] eqn:E; [|discriminate].
    intros _. apply decimal_value_finite. apply parse_unsigned_bound in E.
    eapply Z.lt_le_trans; [exact E|]. apply Hpow. lia.
  - destruct (parse_unsigned (String c t)) as [[m k]|] eqn:E; [|discriminate].
    intros _. apply decimal_value_finite. apply parse_unsigned_bound in E.
    eapply Z.lt_le_trans; [exact E|]. apply Hpow. cbn [String.length]. lia.
Qed.

(** *** Reading back what [toFixed] writes *)

Lemma digit_char_spec (d : N) :
  (d < 10)%N ->
  is_digit (digit_char d) = true
  /\ digit_value (digit_char d) = d
  /\ Ascii.eqb (digit_char d) "." = false
  /\ Ascii.eqb (digit_char d) "-" = false.
Proof.
  intros H.
  assert (E : (d = 0 \/ d = 1 \/ d = 2 \/ d = 3 \/ d = 4 \/ d = 5 \/ d = 6
               \/ d = 7 \/ d = 8 \/ d = 9)%N) by lia.
  repeat (destruct E as [-> | E]; [repeat split|]). subst d. repeat split.
Qed.

Lemma mod_10_lt (n : N) : (n mod 10 < 10)%N.
Proof. apply N.mod_lt. discriminate. Qed.

Lemma digits_of_app (fuel : nat) (n : N) (acc : string) :
  digits_of fuel n acc = digits_of fuel n "" ++ acc.
Proof.
  revert n acc. induction fuel as [|f IH]; intros n acc; cbn [digits_of]; [reflexivity|].
  destruct (n / 10 =? 0)%N; [reflexivity|].
  rewrite IH. rewrite (IH _ (String _ "")).
  rewrite append_assoc. reflexivity.
Qed.

Lemma digits_of_value (fuel : nat) (n : N) (acc : string) :
  (n < 2 ^ N.of_nat fuel)%N ->
  digits_value 0 (digits_of fuel n acc) = digits_value n acc.
Proof.
  revert n acc. induction fuel as [|f IH]; intros n acc Hn.
  - cbn in Hn. assert (n = 0%N) by lia. subst n. reflexivity.
  - cbn [digits_of].
    destruct (digit_char_spec (n mod 10) (mod_10_lt n)) as (Hd & Hv & _).
    assert (Hdm : n = (10 * (n / 10) + n mod 10)%N) by (apply N.div_mod; discriminate).
    destruct (n / 10 =? 0)%N eqn:E.
    + apply N.eqb_eq in E. cbn [digits_value]. rewrite Hd, Hv.
      f_equal. lia.
    + rewrite IH.
      * cbn [digits_value]. rewrite Hd, Hv. f_equal. lia.
      * rewrite Nat2N.inj_succ, N.pow_succ_r' in Hn.
        apply N.Div0.div_lt_upper_bound. lia.
Qed.

Lemma digits_of_split (fuel : nat) (n : N) (acc : string) :
  split_dot (digits_of fuel n acc) =
  (digits_of fuel n "" ++ fst (split_dot acc), snd (split_dot acc)).
Proof.
  revert n acc. induction fuel as [|f IH]; intros n acc; cbn [digits_of].
  - destruct (split_dot acc); reflexivity.
  - destruct (digit_char_spec (n mod 10) (mod_10_lt n)) as (_ & _ & Hdot & _).
    assert (Hs : split_dot (String (digit_char (n mod 10)) acc) =
                 (String (digit_char (n mod 10)) (fst (split_dot acc)), snd (split_dot acc))).
    { cbn [split_dot]. rewrite Hdot. destruct (split_dot acc); reflexivity. }
    destruct (n / 10 =? 0)%N.
    + exact Hs.
    + rewrite IH, Hs. cbn [fst snd].
      rewrite (digits_of_app f _ (String _ "")).
      rewrite append_assoc. reflexivity.
Qed.

Lemma digits_of_head (fuel : nat) (n : N) (acc : string) :
  exists c t, digits_of (S fuel) n acc = String c t /\ Ascii.eqb c "-" = false.
Proof.
  revert n acc. induction fuel as [|f IH]; intros n acc.
  - destruct (digit_char_spec (n mod 10) (mod_10_lt n)) as (_ & _ & _ & Hm).
    exists (digit_char (n mod 10)), acc. split; [|exact Hm].
    cbn [digits_of]. destruct (n / 10 =? 0)%N; reflexivity.
  - destruct (digit_char_spec (n mod 10) (mod_10_lt n)) as (_ & _ & _ & Hm).
    change (digits_of (S (S f)) n acc)
      with (if (n / 10 =? 0)%N then String (digit_char (n mod 10)) acc
            else digits_of (S f) (n / 10) (String (digit_char (n mod 10)) acc)).
    destruct (n / 10 =? 0)%N; [eauto|]. apply IH.
Qed.

Lemma log2_fuel (n : N) : (n < 2 ^ N.of_nat (S (N.to_nat (N.log2 n))))%N.
Proof.
  rewrite Nat2N.inj_succ, N2Nat.id.
  destruct n as [|p]; [cbn; lia|]. apply N.log2_spec. lia.
Qed.

Lemma two_digits_value (q r : N) :
  (r < 100)%N -> digits_value q (two_digits r) = Some (100 * q + r)%N.
Proof.
  intros Hr. unfold two_digits. cbn [digits_value].
  assert (H1 : (r / 10 < 10)%N) by (apply N.Div0.div_lt_upper_bound; lia).
  destruct (digit_char_spec (r / 10) H1) as (Hd1 & Hv1 & _).
  destruct (digit_char_spec (r mod 10) (mod_10_lt r)) as (Hd2 & Hv2 & _).
  rewrite Hd1, Hv1, Hd2, Hv2. f_equal.
  pose proof (N.div_mod r 10). lia.
Qed.

Lemma parse_fixed (n : N) :
  parse_unsigned (decimal (n / 100) ++ "." ++ two_digits (n mod 100)) = Some (n, 2%nat).
Proof.
  unfold parse_unsigned, decimal.
  set (fuel := S (N.to_nat (N.log2 (n / 100)))).
  rewrite <- digits_of_app, digits_of_split.
  change (split_dot ("." ++ two_digits (n mod 100)))
    with ("", Some (two_digits (n mod 100))).
  cbn [fst snd]. rewrite append_empty_r.
  destruct (digits_of_head (N.to_nat (N.log2 (n / 100))) (n / 100) "") as (c & t & Hh & _).
  fold fuel in Hh. rewrite Hh at 1. cbn [is_empty andb].
  rewrite <- digits_of_app, digits_of_value by apply log2_fuel.
  rewrite two_digits_value by (apply N.mod_lt; discriminate).
  f_equal. f_equal. pose proof (N.div_mod n 100). lia.
Qed.

Lemma Number_unsigned (s : string) (c : ascii) (t : string) :
  s = String c t -> Ascii.eqb c "-" = false ->
  Number s = match parse_unsigned s with
             | Some (m, k) => decimal_value false m k
             | None => S754_nan
             end.
Proof. intros -> H. unfold Number. rewrite H. reflexivity. Qed.

Lemma Number_fixed (neg : bool) (n : N) :
  let body := decimal (n / 100) ++ "." ++ two_digits (n mod 100) in
  Number (if neg then String "-" body else body) = decimal_value neg n 2.
Proof.
  intros body. pose proof (parse_fixed n) as Hp. fold body in Hp.
  destruct neg.
  - unfold Number. rewrite Ascii.eqb_refl, Hp. reflexivity.
  - destruct (digits_of_head (N.to_nat (N.log2 (n / 100))) (n / 100)
                ("." ++ two_digits (n mod 100))) as (c & t & Hh & Hm).
    assert (Hb : body = String c t).
    { subst body. unfold decimal. rewrite <- digits_of_app. exact Hh. }
    rewrite (Number_unsigned body c t Hb Hm), Hp. reflexivity.
Qed.

Lemma decimal_value_is_not_nan (neg : bool) (m : N) (k : nat) :
  decimal_value neg m k <> S754_nan.
Proof.
  intros H. pose proof (decimal_value_not_nan neg m k) as Hn.
  rewrite H in Hn. discriminate Hn.
Qed.

Lemma Number_nan_iff (s : string) :
  Number s = S754_nan <-> s <> "" /\ numeral s = false.
Proof.
  destruct s as [|c t].
  - split; [discriminate | intros [H _]; now contradiction H].
  - unfold Number, numeral.
    destruct (Ascii.eqb c "-");
      match goal with
      | |- context [parse_unsigned ?u] => destruct (parse_unsigned u) as [[m k]|]
      end.
    all: split;
      [ intros H;
        first [ now apply decimal_value_is_not_nan in H
              | split; [discriminate | reflexivity] ]
      | intros [_ H]; first [discriminate H | reflexivity] ].
Qed.

(** *** The hundredth that [toFixed(2)] writes *)

Lemma nearest_hundredth_spec (m : positive) (e : Z) :
  (Qabs (inject_Z (Z.of_N (nearest_hundredth m e)) / 100 - real_value m e) <= 1 # 200)%Q.
Proof.
  unfold nearest_hundredth, real_value.
  destruct (0 <=? e) eqn:E.
  - apply Z.leb_le in E.
    assert (0 < 2 ^ e) by (apply Z.pow_pos_nonneg; lia).
    rewrite Z2N.id by nia.
    apply Qabs_Qle_condition.
    unfold Qle, Qminus, Qplus, Qopp, Qdiv, Qmult, Qinv, inject_Z; cbn [Qnum Qden].
    rewrite <- (Z.mul_assoc 100). generalize (Zpos m * 2 ^ e). intros x.
    split; lia.
  - apply Z.leb_gt in E.
    set (P := 2 ^ (- e)).
    assert (HP : 0 < P) by (apply Z.pow_pos_nonneg; lia).
    replace (2 ^ (1 - e)) with (2 * P)
      by (subst P; replace (1 - e) with (1 + - e) by lia; rewrite Z.pow_add_r by lia; reflexivity).
    set (n := (200 * Zpos m + P) / (2 * P)).
    assert (Hn : 2 * P * n <= 200 * Zpos m + P < 2 * P * n + 2 * P).
    { pose proof (Z.div_mod (200 * Zpos m + P) (2 * P)).
      pose proof (Z.mod_pos_bound (200 * Zpos m + P) (2 * P)). subst n. lia. }
    assert (0 <= n) by (apply Z.div_pos; lia).
    rewrite Z2N.id by assumption.
    apply Qabs_Qle_condition.
    unfold Qle, Qminus, Qplus, Qopp, Qdiv, Qmult, Qinv, inject_Z; cbn [Qnum Qden].
    rewrite !Pos2Z.inj_mul, Z2Pos.id by exact HP.
    split; nia.
Qed.

(** What [+x.toFixed(2)] is for a finite [x] below 1e21: the number
    nearest to the hundredth nearest to [x]. *)
Lemma ToNumber_toFixed2_finite (neg : bool) (m : positive) (e : Z) :
  at_least_1e21 m e = false ->
  ToNumber (toFixed2 (S754_finite neg m e))
  = decimal_value neg (nearest_hundredth m e) 2.
Proof.
  intros H. unfold toFixed2. rewrite H. cbn [ToNumber]. apply Number_fixed.
Qed.

End NumberTexts.

(** ** Name normalisation *)

Section NormalizeName.
Import JSString Data Reading.

Lemma name_char_cases (c : ascii) :
  name_char c = true ->
  (is_space c = true /\ (is_lower c || is_digit c) = false)
  \/ (is_space c = false /\ (is_lower c || is_digit c) = true
      /\ Ascii.eqb c " " = false /\ lower_char c = c).
Proof.
  destruct c as [[] [] [] [] [] [] [] []]; vm_compute; intros H;
    first [ discriminate H
          | left; split; reflexivity
          | right; repeat split; reflexivity ].
Qed.

Lemma space_is_space (c : ascii) :
  Ascii.eqb c " " = true -> is_space c = true /\ lower_char c = c /\ name_char c = true.
Proof. intros H. apply Ascii.eqb_eq in H. subst c. repeat split. Qed.

Lemma tidy_char (c : ascii) :
  Ascii.eqb c " " = false -> (is_lower c || is_digit c) = true ->
  is_space c = false /\ lower_char c = c /\ name_char c = true.
Proof.
  intros Hs Hl.
  assert (Hn : name_char c = true) by (unfold name_char; rewrite Hl; reflexivity).
  destruct (name_char_cases c Hn) as [[_ H] | (H1 & _ & _ & H2)]; [congruence|auto].
Qed.

Lemma keep_chars_all (p : ascii -> bool) (s : string) :
  keep_chars p (keep_chars p s) = keep_chars p s.
Proof.
  induction s as [|c t IH]; [reflexivity|]. cbn [keep_chars].
  destruct (p c) eqn:E; [|exact IH]. cbn [keep_chars]. rewrite E, IH. reflexivity.
Qed.

Lemma collapse_tidy (in_run : bool) (s : string) :
  keep_chars name_char s = s ->
  tidy in_run (collapse_from in_run s) = true.
Proof.
  revert in_run. induction s as [|c t IH]; intros in_run Hk; [reflexivity|].
  cbn [keep_chars] in Hk. destruct (name_char c) eqn:Hc.
  - injection Hk as Hk. cbn [collapse_from].
    destruct (name_char_cases c Hc) as [[Hs _] | (Hs & Hl & He & _)]; rewrite Hs.
    + destruct in_run; [apply IH; exact Hk|].
      cbn [tidy]. rewrite Ascii.eqb_refl. cbn. apply IH; exact Hk.
    + cbn [tidy]. rewrite He, Hl. cbn. apply IH; exact Hk.
  - exfalso. assert (Hlen : String.length (keep_chars name_char t) = S (String.length t))
      by (rewrite Hk; reflexivity).
    assert (Hle : forall u, (String.length (keep_chars name_char u) <= String.length u)%nat).
    { induction u as [|x u IHu]; cbn; [lia|]. destruct (name_char x); cbn; lia. }
    specialize (Hle t). lia.
Qed.

Lemma tidy_lower (b : bool) (s : string) : tidy b s = true -> toLowerCase s = s.
Proof.
  revert b. induction s as [|c t IH]; intros b H; [reflexivity|].
  cbn [tidy] in H. unfold toLowerCase. cbn [map_chars]. fold (toLowerCase t).
  destruct (Ascii.eqb c " ") eqn:E.
  - apply andb_true_iff in H as [_ H]. apply space_is_space in E as (_ & -> & _).
    rewrite (IH _ H). reflexivity.
  - apply andb_true_iff in H as [Hl H]. destruct (tidy_char c E Hl) as (_ & -> & _).
    rewrite (IH _ H). reflexivity.
Qed.

Lemma tidy_keep (b : bool) (s : string) : tidy b s = true -> keep_chars name_char s = s.
Proof.
  revert b. induction s as [|c t IH]; intros b H; [reflexivity|].
  cbn [tidy] in H. cbn [keep_chars].
  destruct (Ascii.eqb c " ") eqn:E.
  - apply andb_true_iff in H as [_ H]. apply space_is_space in E as (_ & _ & ->).
    rewrite (IH _ H). reflexivity.
  - apply andb_true_iff in H as [Hl H]. destruct (tidy_char c E Hl) as (_ & _ & ->).
    rewrite (IH _ H). reflexivity.
Qed.

Lemma tidy_collapse (b : bool) (s : string) : tidy b s = true -> collapse_from b s = s.
Proof.
  revert b. induction s as [|c t IH]; intros b H; [reflexivity|].
  cbn [tidy] in H. cbn [collapse_from].
  destruct (Ascii.eqb c " ") eqn:E.
  - apply andb_true_iff in H as [Hb H]. destruct b; [discriminate Hb|].
    pose proof E as E'. apply space_is_space in E as (-> & _ & _).
    apply Ascii.eqb_eq in E'. subst c. rewrite (IH _ H). reflexivity.
  - apply andb_true_iff in H as [Hl H]. destruct (tidy_char c E Hl) as (-> & _ & _).
    rewrite (IH _ H). reflexivity.
Qed.

Lemma tidy_weaken (b : bool) (s : string) : tidy b s = true -> tidy false s = true.
Proof.
  destruct s as [|c t]; [reflexivity|]. cbn [tidy].
  destruct (Ascii.eqb c " "); [|auto]. intros H.
  apply andb_true_iff in H as [_ H]. exact H.
Qed.

Lemma tidy_trimStart (b : bool) (s : string) :
  tidy b s = true -> tidy false (trimStart s) = true.
Proof.
  revert b. induction s as [|c t IH]; intros b H; [reflexivity|].
  cbn [trimStart]. destruct (is_space c) eqn:Hs.
  - cbn [tidy] in H. destruct (Ascii.eqb c " ").
    + apply andb_true_iff in H as [_ H]. apply (IH _ H).
    + apply andb_true_iff in H as [_ H]. apply (IH _ H).
  - apply (tidy_weaken b). exact H.
Qed.

Lemma tidy_trimEnd (b : bool) (s : string) :
  tidy b s = true -> tidy b (trimEnd s) = true.
Proof.
  revert b. induction s as [|c t IH]; intros b H; [reflexivity|].
  cbn [tidy] in H. cbn [trimEnd].
  destruct (Ascii.eqb c " ") eqn:E.
  - apply andb_true_iff in H as [Hb H]. specialize (IH _ H).
    pose proof E as E'. apply space_is_space in E' as (Hs & _ & _).
    destruct (trimEnd t) as [|x u]; [rewrite Hs; reflexivity|].
    cbn [tidy]. rewrite E, Hb. exact IH.
  - apply andb_true_iff in H as [Hl H]. specialize (IH _ H).
    destruct (tidy_char c E Hl) as (Hs & _ & _).
    destruct (trimEnd t) as [|x u]; [rewrite Hs|]; cbn [tidy]; rewrite E, Hl; [reflexivity|exact IH].
Qed.

Lemma normalizeName_tidy (s : string) : tidy false (normalizeName s) = true.
Proof.
  unfold normalizeName. destruct (is_empty s); [reflexivity|].
  apply collapse_tidy. apply keep_chars_all.
Qed.

(** A second run of [normalizeName] trims the result of the first, and
    does nothing else. *)
Lemma normalizeName_twice (s : string) :
  normalizeName (normalizeName s) = trim (normalizeName s).
Proof.
  pose proof (normalizeName_tidy s) as Ht.
  generalize dependent (normalizeName s). intros o Ht.
  unfold normalizeName at 1. destruct (is_empty o) eqn:E.
  - destruct o; [reflexivity | discriminate E].
  - assert (Hr : tidy false (trim o) = true).
    { unfold trim. apply tidy_trimEnd. apply (tidy_trimStart false). exact Ht. }
    rewrite (tidy_lower _ _ Hr), (tidy_keep _ _ Hr).
    apply (tidy_collapse false). exact Hr.
Qed.

(** [normalizeName] leaves its own result alone exactly when that
    result has no space at either end. *)
Lemma normalizeName_idempotent_iff (s : string) :
  normalizeName (normalizeName s) = normalizeName s
  <-> trim (normalizeName s) = normalizeName s.
Proof. rewrite normalizeName_twice. reflexivity. Qed.

Example normalizeName_OBrien :
  normalizeName "O'Brien  Jr." = "obrien jr"
  /\ normalizeName "obrien jr" = "obrien jr".
Proof. split; reflexivity. Qed.

(** C4: the name is trimmed before the punctuation is removed, so a
    name whose last word is punctuation keeps a trailing space; a
    second run removes that space.  [normalizeName] is not idempotent
    at ["John Doe (!)"], nor blind to the punctuation there. *)
Theorem C4_normalizeName_trailing_space :
  normalizeName "John Doe (!)" = "john doe "
  /\ normalizeName (normalizeName "John Doe (!)") = "john doe"
  /\ normalizeName (normalizeName "John Doe (!)") <> normalizeName "John Doe (!)"
  /\ normalizeName "John Doe (!)" <> normalizeName "john doe".
Proof. repeat split; try reflexivity; vm_compute; discriminate. Qed.

End NormalizeName.

(** ** Coercion of numbers *)

Section Coercion.
Import JSString JSNumber JSDate Data App Reading.

Lemma toNumber_Some (v : option string) (n : number) :
  toNumber v = Some n <->
  exists s, v = Some s /\ n = Number (keep_chars numeric_char s) /\ isNaN n = false.
Proof.
  unfold toNumber. split.
  - destruct v as [s|]; [|discriminate].
    destruct (isNaN (Number (keep_chars numeric_char s))) eqn:E; [discriminate|].
    intros [= <-]. exists s. auto.
  - intros (s & -> & -> & H). rewrite H. reflexivity.
Qed.

(** [toNumber] gives [null] for a missing cell and for a cell whose
    cleaned text is not empty and not a numeral, and for no other. *)
Lemma toNumber_None (v : option string) :
  toNumber v = None <->
  v = None \/
  exists s, v = Some s
            /\ keep_chars numeric_char s <> ""
            /\ numeral (keep_chars numeric_char s) = false.
Proof.
  unfold toNumber. destruct v as [s|].
  - destruct (Number (keep_chars numeric_char s)) eqn:E; cbn [isNaN].
    1,2,4: split; [discriminate|];
      intros [H | (s' & [= <-] & H)]; [discriminate H|];
      apply Number_nan_iff in H; rewrite H in E; discriminate E.
    split; [|reflexivity]. intros _. right. exists s.
    split; [reflexivity|]. apply Number_nan_iff. exact E.
  - split; auto.
Qed.

(** C1: a cell without any digit is cleaned to the empty text, which
    [Number] reads as 0, not as [NaN]: the row [{Name: "", SquatKg: "bad"}]
    gets 0 kg and 0 lb.  A lone ["-"] and a missing cell do give [null]. *)
Theorem C1_cell_without_digits_is_zero :
  keep_chars numeric_char "bad" = ""
  /\ toNumber (Some "bad") = Some (S754_zero false)
  /\ toNumber (Some "-") = None
  /\ toNumber None = None
  /\ forall Date_parse : string -> option Z,
       List.map (fun o => (Name o, SquatKg o, SquatLb o))
         (processCsvData Date_parse [row_bad_squat])
       = [("", Some (S754_zero false), Some (S754_zero false))].
Proof. repeat split. Qed.

(** C6, as the code has it: [toNumber] gives [null] or a number that is
    not [NaN], and that number is finite when the cleaned text has at
    most 308 characters. *)
Theorem C6_toNumber_never_NaN :
  forall (v : option string) (n : number),
    toNumber v = Some n ->
    isNaN n = false
    /\ forall s, v = Some s ->
         (String.length (keep_chars numeric_char s) <= 308)%nat ->
         isFinite n = true.
Proof.
  intros v n H. apply toNumber_Some in H as (s & -> & -> & Hn).
  split; [exact Hn|]. intros s' [= <-] Hl.
  apply Number_finite; assumption.
Qed.

Lemma C6_toNumber_never_NaN_witness :
  toNumber (Some "100 kg") = Some (Number "100")
  /\ (String.length (keep_chars numeric_char "100 kg") <= 308)%nat
  /\ isNaN (Number "100") = false
  /\ isFinite (Number "100") = true.
Proof.
  assert (Hl : (String.length (keep_chars numeric_char "100 kg") <= 308)%nat)
    by (vm_compute; lia).
  destruct (C6_toNumber_never_NaN (Some "100 kg") (Number "100") eq_refl) as [H1 H2].
  split; [reflexivity|]. split; [exact Hl|]. split; [exact H1|].
  exact (H2 "100 kg" eq_refl Hl).
Defined.

(** C6, as the design document has it, fails: a cell of 309 nines is
    more than the largest number and is read as [Infinity]. *)
Lemma C6_long_cell_is_infinite :
  toNumber (Some cell_309_nines) = Some (S754_infinity false)
  /\ ~ (forall v n, toNumber v = Some n -> isFinite n = true).
Proof.
  assert (H : toNumber (Some cell_309_nines) = Some (S754_infinity false))
    by (vm_compute; reflexivity).
  split; [exact H|]. intros Hall. specialize (Hall _ _ H). discriminate Hall.
Qed.

End Coercion.

(** ** Ingestion *)

Section IngestionFacts.
Import JSString JSNumber JSDate Data App Reading.

(** C5: [processCsvData] maps the rows one by one: as many records as
    rows, the record at each position made from the row at that
    position, nothing for no rows, and a row without any known column
    gives the record of defaults. *)
Theorem C5_ingestion_preserves_rows :
  forall (Date_parse : string -> option Z) (rows : list (gmap string string)),
    List.length (processCsvData Date_parse rows) = List.length rows
    /\ (forall i : nat,
          processCsvData Date_parse rows !! i = row_record Date_parse <$> rows !! i)
    /\ processCsvData Date_parse [] = []
    /\ row_record Date_parse ∅ =
         {| Name := ""; NameNormalized := ""; MeetDate := None;
            Equipment := ""; Federation := ""; Age := None;
            BodyweightKg := None; SquatKg := None; BenchKg := None;
            DeadliftKg := None; TotalKg := None; SquatLb := None;
            BenchLb := None; DeadliftLb := None; TotalLb := None |}.
Proof.
  intros Date_parse rows. unfold processCsvData.
  split; [apply List.length_map|].
  split; [intros i; apply list_lookup_fmap|].
  split; reflexivity.
Qed.

(** C3, as the code has it: each field takes the cell under the first
    alias that holds a text that is not empty, so an empty cell under an
    earlier alias is passed over; a text or date field without such a
    cell takes its default, and so does every field when the row has
    none of its aliases. *)
Theorem C3_first_nonempty_alias :
  forall (Date_parse : string -> option Z) (r : gmap string string) (f : field),
    (forall v, first_nonempty r (aliases f) = Some v ->
       field_of f (row_record Date_parse r) = coerce Date_parse f (Some v))
    /\ (first_nonempty r (aliases f) = None -> is_numeric f = false ->
        field_of f (row_record Date_parse r) = default_of f)
    /\ ((forall k, In k (aliases f) -> r !! k = None) ->
        field_of f (row_record Date_parse r) = default_of f).
Proof.
  intros dp r f. split; [|split].
  - intros v. destruct f; unfold_fields; case_cells; try congruence.
    all: intros [= <-]; try reflexivity.
    all: unfold parseDate; cbn; destruct (dp _); reflexivity.
  - intros Hnone Hnum. destruct f; try discriminate Hnum.
    all: revert Hnone; unfold_fields; case_cells; try congruence; reflexivity.
  - intros Hk.
    destruct f; cbn [aliases] in Hk; unfold_fields;
      repeat match goal with
        | |- context [lookup ?k ?m] => rewrite (Hk k) by (cbn; tauto)
        end; reflexivity.
Qed.

Lemma C3_first_nonempty_alias_witness :
  first_nonempty row_two_names (aliases FName) = Some "Bob"
  /\ field_of FName (row_record Date_parse_iso row_two_names) = VText "Bob"
  /\ first_nonempty row_two_names (aliases FEquipment) = None
  /\ field_of FEquipment (row_record Date_parse_iso row_two_names) = VText ""
  /\ (forall k, In k (aliases FAge) -> row_two_names !! k = None)
  /\ field_of FAge (row_record Date_parse_iso row_two_names) = VNumber None.
Proof.
  assert (Hname : first_nonempty row_two_names (aliases FName) = Some "Bob")
    by (vm_compute; reflexivity).
  assert (Hequipment : first_nonempty row_two_names (aliases FEquipment) = None)
    by (vm_compute; reflexivity).
  assert (Hage : forall k, In k (aliases FAge) -> row_two_names !! k = None)
    by (intros k [<- | [<- | []]]; vm_compute; reflexivity).
  split; [exact Hname|]. split.
  { exact (proj1 (C3_first_nonempty_alias Date_parse_iso row_two_names FName)
             "Bob" Hname). }
  split; [exact Hequipment|]. split.
  { exact (proj1 (proj2 (C3_first_nonempty_alias Date_parse_iso row_two_names
                           FEquipment)) Hequipment eq_refl). }
  split; [exact Hage|].
  exact (proj2 (proj2 (C3_first_nonempty_alias Date_parse_iso row_two_names FAge))
           Hage).
Defined.

(** C3, as the design document has it, fails: in the row
    [{Name: "", name: "Bob"}] the first alias that is present holds the
    empty text, and the record is named ["Bob"]. *)
Lemma C3_empty_cell_is_passed_over :
  first_present row_two_names (aliases FName) = Some ""
  /\ field_of FName (row_record Date_parse_iso row_two_names)
     <> coerce Date_parse_iso FName (Some "").
Proof. split; [vm_compute; reflexivity | vm_compute; discriminate]. Qed.

Lemma lift_fields (Date_parse : string -> option Z) (r : gmap string string) (l : lift) :
  lb_of l (row_record Date_parse r) = pounds (kg_of l (row_record Date_parse r)).
Proof. destruct l; reflexivity. Qed.

(** C2: in every record made by ingestion and for each lift, the pound
    field is [null] exactly when the kilogram field is; otherwise it is
    [+(kg * KG_TO_LB).toFixed(2)], where [KG_TO_LB] is the number nearest
    to 2.20462, the product is the product of numbers, and, the product
    being finite and below 1e21, the result is the number nearest to
    [n / 100] for an integer [n] with [n / 100] within 0.005 of the
    product; a product of magnitude 1e21 or more, which has no decimals,
    and an infinite product are kept as they are. *)
Theorem C2_pounds_derived_from_kilograms :
  forall (Date_parse : string -> option Z) (rows : list (gmap string string))
         (o : LifterRecord) (l : lift),
    In o (processCsvData Date_parse rows) ->
    (kg_of l o = None <-> lb_of l o = None)
    /\ KG_TO_LB = decimal_value false 220462 5
    /\ forall k, kg_of l o = Some k ->
         lb_of l o = Some (ToNumber (toFixed2 (mul k KG_TO_LB)))
         /\ (forall neg m e,
               mul k KG_TO_LB = S754_finite neg m e ->
               at_least_1e21 m e = false ->
               exists n : N,
                 lb_of l o = Some (decimal_value neg n 2)
                 /\ (Qabs (inject_Z (Z.of_N n) / 100 - real_value m e) <= 1 # 200)%Q)
         /\ (forall neg m e,
               mul k KG_TO_LB = S754_finite neg m e ->
               at_least_1e21 m e = true ->
               lb_of l o = Some (mul k KG_TO_LB))
         /\ (isFinite (mul k KG_TO_LB) = false ->
             lb_of l o = Some (mul k KG_TO_LB)).
Proof.
  intros dp rows o l Ho.
  apply in_map_iff in Ho as (r & <- & _).
  rewrite lift_fields. unfold pounds.
  destruct (kg_of l (row_record dp r)) as [k|].
  - split; [split; discriminate|]. split; [reflexivity|].
    intros k' [= <-]. split; [reflexivity|]. split; [|split].
    + intros neg m e Hmul Hsmall. exists (nearest_hundredth m e).
      rewrite Hmul, ToNumber_toFixed2_finite by exact Hsmall.
      split; [reflexivity | apply nearest_hundredth_spec].
    + intros neg m e Hmul Hbig. rewrite Hmul. unfold toFixed2.
      rewrite Hbig. reflexivity.
    + destruct (mul k KG_TO_LB); try discriminate; reflexivity.
  - split; [split; reflexivity|]. split; [reflexivity|]. discriminate.
Qed.

Lemma C2_pounds_derived_from_kilograms_witness :
  In (row_record Date_parse_iso row_jane_2020)
     (processCsvData Date_parse_iso [row_jane_2020])
  /\ kg_of Squat (row_record Date_parse_iso row_jane_2020) = Some (Number "100")
  /\ lb_of Squat (row_record Date_parse_iso row_jane_2020) = Some (Number "220.46")
  /\ exists n : N,
       lb_of Squat (row_record Date_parse_iso row_jane_2020)
       = Some (decimal_value false n 2)
       /\ (Qabs (inject_Z (Z.of_N n) / 100 - real_value 7756817039448080 (-45)) <= 1 # 200)%Q.
Proof.
  destruct (C2_pounds_derived_from_kilograms Date_parse_iso [row_jane_2020]
              (row_record Date_parse_iso row_jane_2020) Squat (or_introl eq_refl))
    as (_ & _ & H).
  destruct (H (Number "100") eq_refl) as (H1 & H2 & _ & _).
  split; [left; reflexivity|]. split; [reflexivity|]. split.
  - rewrite H1. vm_compute. reflexivity.
  - apply (H2 false 7756817039448080%positive (-45)); vm_compute; reflexivity.
Defined.

(** 250 kg is 551.155 lb in exact arithmetic; the product of numbers is
    a little below it and is written 551.15. *)
Example pounds_of_250 :
  pounds (toNumber (Some "250")) = Some (Number "551.15").
Proof. vm_compute. reflexivity. Qed.

End IngestionFacts.

(** ** Sorting by a key *)

Section SortFacts.
Import JSArray Reading.
Context {A : Type} (key : A -> Z).

Lemma insert_sorted_perm (x : A) (l : list A) :
  Permutation (insert_sorted (by_key key) x l) (x :: l).
Proof.
  induction l as [|y t IH]; cbn; [reflexivity|].
  destruct ((by_key key) x y <=? 0); [reflexivity|].
  rewrite IH. apply perm_swap.
Qed.

Lemma sort_perm (l : list A) : Permutation (sort (by_key key) l) l.
Proof.
  induction l as [|x t IH]; cbn; [reflexivity|].
  rewrite insert_sorted_perm. now apply perm_skip.
Qed.

Lemma insert_sorted_head (x : A) (l : list A) :
  Forall ((key_le key) x) l -> insert_sorted (by_key key) x l = x :: l.
Proof.
  destruct l as [|y t]; cbn; [reflexivity|].
  intros H. inversion_clear H as [|? ? Hy _].
  unfold key_le in Hy. unfold by_key.
  destruct (key x - key y <=? 0) eqn:E; [reflexivity|]. lia.
Qed.

Lemma insert_sorted_sorted (x : A) (l : list A) :
  StronglySorted (key_le key) l -> StronglySorted (key_le key) (insert_sorted (by_key key) x l).
Proof.
  induction l as [|y t IH]; cbn; intros Hs.
  - repeat constructor.
  - inversion_clear Hs as [|? ? Ht Hy].
    unfold by_key at 1. destruct (key x - key y <=? 0) eqn:E.
    + constructor; [now constructor|].
      constructor; [unfold key_le; lia|].
      eapply List.Forall_impl; [|exact Hy]. unfold key_le. intros; lia.
    + constructor; [now apply IH|].
      eapply Permutation_Forall; [symmetry; apply insert_sorted_perm|].
      constructor; [unfold key_le; lia | exact Hy].
Qed.

Lemma sort_sorted (l : list A) : StronglySorted (key_le key) (sort (by_key key) l).
Proof.
  induction l as [|x t IH]; cbn; [constructor | now apply insert_sorted_sorted].
Qed.

Lemma filter_insert_sorted (p : A -> bool) (x : A) (l : list A) :
  StronglySorted (key_le key) l ->
  List.filter p (insert_sorted (by_key key) x l) =
  if p x then insert_sorted (by_key key) x (List.filter p l) else List.filter p l.
Proof.
  induction l as [|y t IH]; cbn; intros Hs.
  - destruct (p x); reflexivity.
  - inversion_clear Hs as [|? ? Ht Hy].
    unfold by_key at 1. destruct (key x - key y <=? 0) eqn:E; cbn.
    + destruct (p x) eqn:Px; [|reflexivity].
      destruct (p y) eqn:Py.
      * cbn. unfold by_key. now rewrite E.
      * symmetry. apply insert_sorted_head.
        apply List.Forall_forall. intros z Hz. apply filter_In in Hz as [Hz _].
        rewrite List.Forall_forall in Hy. specialize (Hy z Hz). unfold key_le in *. lia.
    + rewrite (IH Ht). destruct (p x) eqn:Px, (p y) eqn:Py; cbn; try reflexivity.
      unfold by_key at 2. now rewrite E.
Qed.

Lemma filter_sort (p : A -> bool) (l : list A) :
  List.filter p (sort (by_key key) l) = sort (by_key key) (List.filter p l).
Proof.
  induction l as [|x t IH]; [reflexivity|].
  change (sort (by_key key) (x :: t)) with (insert_sorted (by_key key) x (sort (by_key key) t)).
  rewrite filter_insert_sorted by apply sort_sorted.
  rewrite IH. cbn [List.filter]. destruct (p x); reflexivity.
Qed.

Lemma sorted_lookup_le (l : list A) (i j : nat) (a b : A) :
  StronglySorted (key_le key) l ->
  l !! i = Some a -> l !! j = Some b -> (i < j)%nat -> key a <= key b.
Proof.
  intros Hs. revert i j.
  induction Hs as [|y t Ht IH Hy]; intros i j Hi Hj Hij; [discriminate|].
  destruct j as [|j]; [lia|]. cbn in Hj.
  destruct i as [|i]; cbn in Hi.
  - injection Hi as <-. rewrite List.Forall_forall in Hy.
    apply Hy. apply list_elem_of_In. eapply list_elem_of_lookup_2; eauto.
  - apply (IH i j); auto; lia.
Qed.

Lemma sorted_lookup_lt (l : list A) (i j : nat) (a b : A) :
  StronglySorted (key_le key) l ->
  l !! i = Some a -> l !! j = Some b -> key a < key b -> (i < j)%nat.
Proof.
  intros Hs Hi Hj Hlt.
  destruct (Nat.lt_trichotomy i j) as [H | [-> | H]]; [exact H | |].
  - rewrite Hi in Hj. injection Hj as ->. lia.
  - pose proof (sorted_lookup_le l j i b a Hs Hj Hi H). lia.
Qed.

End SortFacts.

Section MoreSortFacts.
Import JSArray Reading.
Context {A : Type} (key : A -> Z).

Lemma sort_same_key (l : list A) :
  (forall a b, In a l -> In b l -> key a = key b) ->
  sort (by_key key) l = l.
Proof.
  induction l as [|x t IH]; intros H; [reflexivity|].
  change (sort (by_key key) (x :: t)) with (insert_sorted (by_key key) x (sort (by_key key) t)).
  rewrite IH by (intros a b Ha Hb; apply H; now right).
  apply insert_sorted_head. apply List.Forall_forall. intros y Hy.
  unfold key_le. rewrite (H x y); [lia | now left | now right].
Qed.

Lemma sort_already_sorted (l : list A) :
  StronglySorted (key_le key) l -> sort (by_key key) l = l.
Proof.
  induction 1 as [|x t Ht IH Hx]; [reflexivity|].
  change (sort (by_key key) (x :: t)) with (insert_sorted (by_key key) x (sort (by_key key) t)).
  rewrite IH. apply insert_sorted_head. exact Hx.
Qed.

End MoreSortFacts.

Section FilterFacts.
Context {A : Type}.

Lemma filter_twice (p q : A -> bool) (l : list A) :
  List.filter p (List.filter q l) = List.filter (fun a => q a && p a) l.
Proof.
  induction l as [|x t IH]; [reflexivity|]. cbn [List.filter].
  destruct (q x); cbn [List.filter andb]; [|exact IH].
  destruct (p x); rewrite IH; reflexivity.
Qed.

Lemma filter_agree (p q : A -> bool) (l : list A) :
  (forall a, In a l -> p a = q a) -> List.filter p l = List.filter q l.
Proof.
  induction l as [|x t IH]; intros H; [reflexivity|]. cbn [List.filter].
  rewrite (H x) by now left. rewrite IH by (intros a Ha; apply H; now right).
  reflexivity.
Qed.

Lemma filter_split_perm (p : A -> bool) (l : list A) :
  Permutation (List.filter p l ++ List.filter (fun a => negb (p a)) l) l.
Proof.
  induction l as [|x t IH]; [reflexivity|]. cbn [List.filter].
  destruct (p x); cbn [negb].
  - cbn. now apply perm_skip.
  - rewrite <- Permutation_middle. now apply perm_skip.
Qed.

Lemma filter_permutation (p : A -> bool) (l l' : list A) :
  Permutation l l' -> Permutation (List.filter p l) (List.filter p l').
Proof.
  induction 1 as [|x l l' _ IH|x y l|l l' l'' _ IH1 _ IH2]; cbn [List.filter].
  - constructor.
  - destruct (p x); [now apply perm_skip | exact IH].
  - destruct (p x), (p y); try reflexivity. apply perm_swap.
  - now transitivity (List.filter p l').
Qed.

End FilterFacts.

(** ** Sorting with a comparison function *)

Section ComparatorSort.
Import JSArray.
Context {A : Type} (cmp : A -> A -> Z).
Hypothesis cmp_total : forall a b, 0 < cmp a b -> cmp b a <= 0.
Hypothesis cmp_trans : forall a b c, cmp a b <= 0 -> cmp b c <= 0 -> cmp a c <= 0.

Lemma insert_sorted_permutation (x : A) (l : list A) :
  Permutation (insert_sorted cmp x l) (x :: l).
Proof.
  induction l as [|y t IH]; cbn; [reflexivity|].
  destruct (cmp x y <=? 0); [reflexivity|].
  rewrite IH. apply perm_swap.
Qed.

Lemma sort_permutation (l : list A) : Permutation (sort cmp l) l.
Proof.
  induction l as [|x t IH]; cbn; [reflexivity|].
  rewrite insert_sorted_permutation. now apply perm_skip.
Qed.

Lemma insert_sorted_ordered (x : A) (l : list A) :
  StronglySorted (fun a b => cmp a b <= 0) l ->
  StronglySorted (fun a b => cmp a b <= 0) (insert_sorted cmp x l).
Proof.
  induction l as [|y t IH]; cbn; intros Hs.
  - repeat constructor.
  - inversion_clear Hs as [|? ? Ht Hy].
    destruct (cmp x y <=? 0) eqn:E.
    + apply Z.leb_le in E. constructor; [now constructor|].
      constructor; [exact E|].
      eapply List.Forall_impl; [|exact Hy]. intros z Hz. now apply (cmp_trans x y z).
    + apply Z.leb_gt in E. constructor; [now apply IH|].
      eapply Permutation_Forall; [symmetry; apply insert_sorted_permutation|].
      constructor; [now apply cmp_total | exact Hy].
Qed.

Lemma sort_ordered (l : list A) :
  StronglySorted (fun a b => cmp a b <= 0) (sort cmp l).
Proof.
  induction l as [|x t IH]; cbn; [constructor | now apply insert_sorted_ordered].
Qed.

End ComparatorSort.

Section SortExt.
Import JSArray.
Context {A : Type} (f g : A -> A -> Z).

Lemma insert_sorted_ext (x : A) (l : list A) :
  (forall y, In y l -> f x y = g x y) ->
  insert_sorted f x l = insert_sorted g x l.
Proof.
  induction l as [|y t IH]; intros H; [reflexivity|]. cbn [insert_sorted].
  rewrite (H y) by now left. rewrite IH by (intros z Hz; apply H; now right).
  reflexivity.
Qed.

Lemma sort_ext (l : list A) :
  (forall a b, In a l -> In b l -> f a b = g a b) -> sort f l = sort g l.
Proof.
  induction l as [|x t IH]; intros H; [reflexivity|].
  change (sort f (x :: t)) with (insert_sorted f x (sort f t)).
  change (sort g (x :: t)) with (insert_sorted g x (sort g t)).
  rewrite IH by (intros a b Ha Hb; apply H; now right).
  apply insert_sorted_ext. intros y Hy. apply H; [now left|]. right.
  exact (Permutation_in _ (sort_permutation g t) Hy).
Qed.

End SortExt.

(** ** The query layer *)

Section QueryFacts.
Import JSString JSNumber JSDate JSArray Data App Reading Selection.

Lemma js_or_text_Some (s : string) : js_or_text (Some s) "" = s.
Proof. destruct s; reflexivity. Qed.

Lemma lower_char_r (c : ascii) :
  lower_char c = "r"%char <-> c = "r"%char \/ c = "R"%char.
Proof.
  split.
  - by_cases_on_char c.
  - intros [-> | ->]; reflexivity.
Qed.

Lemma lower_char_a (c : ascii) :
  lower_char c = "a"%char <-> c = "a"%char \/ c = "A"%char.
Proof.
  split.
  - by_cases_on_char c.
  - intros [-> | ->]; reflexivity.
Qed.

Lemma lower_char_w (c : ascii) :
  lower_char c = "w"%char <-> c = "w"%char \/ c = "W"%char.
Proof.
  split.
  - by_cases_on_char c.
  - intros [-> | ->]; reflexivity.
Qed.

Lemma startsWith_raw (s : string) :
  startsWith "raw" (toLowerCase s) = true <->
  exists c1 c2 c3 post,
    s = String c1 (String c2 (String c3 post))
    /\ lower_char c1 = "r"%char /\ lower_char c2 = "a"%char /\ lower_char c3 = "w"%char.
Proof.
  split.
  - destruct s as [|c1 [|c2 [|c3 post]]]; unfold toLowerCase;
      cbn [map_chars startsWith]; try discriminate.
    + rewrite andb_false_r. discriminate.
    + rewrite !andb_false_r. discriminate.
    + rewrite andb_true_r, !andb_true_iff.
      intros [H1 [H2 H3]]. apply Ascii.eqb_eq in H1, H2, H3.
      exists c1, c2, c3, post. auto.
  - intros (c1 & c2 & c3 & post & -> & H1 & H2 & H3).
    unfold toLowerCase; cbn [map_chars startsWith].
    rewrite H1, H2, H3. reflexivity.
Qed.

Lemma includes_raw (s : string) :
  includes (toLowerCase s) "raw" = true <->
  exists pre c1 c2 c3 post,
    s = (pre ++ String c1 (String c2 (String c3 post)))%string
    /\ lower_char c1 = "r"%char /\ lower_char c2 = "a"%char /\ lower_char c3 = "w"%char.
Proof.
  induction s as [|c t IH].
  - split; [discriminate|].
    intros (pre & c1 & c2 & c3 & post & H & _). destruct pre; discriminate H.
  - change (includes (toLowerCase (String c t)) "raw")
      with (startsWith "raw" (toLowerCase (String c t)) || includes (toLowerCase t) "raw").
    rewrite orb_true_iff, startsWith_raw, IH. split.
    + intros [(c1 & c2 & c3 & post & H) | (pre & c1 & c2 & c3 & post & H & Hc)].
      * exists "", c1, c2, c3, post. exact H.
      * exists (String c pre), c1, c2, c3, post. rewrite H. auto.
    + intros (pre & c1 & c2 & c3 & post & H & Hc).
      destruct pre as [|a pre]; cbn in H.
      * left. exists c1, c2, c3, post. auto.
      * right. injection H as -> ->. exists pre, c1, c2, c3, post. auto.
Qed.

Lemma filtered_eq (rows : list LifterRecord) (selected equipment : string) :
  filtered rows selected equipment =
  if is_empty selected then []
  else sort (SortCompare by_date) (survivors rows selected equipment).
Proof. reflexivity. Qed.

Lemma filtered_perm (rows : list LifterRecord) (selected equipment : string) :
  Permutation (filtered rows selected equipment)
    (if is_empty selected then [] else survivors rows selected equipment).
Proof.
  rewrite filtered_eq. destruct (is_empty selected); [reflexivity|].
  apply sort_permutation.
Qed.

Lemma survivors_passes (rows : list LifterRecord) (selected equipment : string) :
  survivors rows selected equipment = List.filter (passes selected equipment) rows.
Proof.
  unfold survivors, passes.
  destruct (negb (String.eqb equipment "All")); [destruct (String.eqb equipment "Raw")|].
  - apply filter_twice.
  - apply filter_twice.
  - apply filter_agree. intros a _. rewrite andb_true_r. reflexivity.
Qed.

Lemma filtered_passes (rows : list LifterRecord) (selected equipment : string) :
  filtered rows selected equipment =
  if is_empty selected then []
  else sort (SortCompare by_date) (List.filter (passes selected equipment) rows).
Proof. rewrite filtered_eq, survivors_passes. reflexivity. Qed.

Lemma is_empty_false (s : string) : is_empty s = false <-> s <> "".
Proof. destruct s; cbn; split; congruence. Qed.

Lemma filtered_In (rows : list LifterRecord) (selected equipment : string)
  (r : LifterRecord) :
  In r (filtered rows selected equipment) <->
  selected <> "" /\ In r rows /\ passes selected equipment r = true.
Proof.
  rewrite filtered_passes, <- is_empty_false.
  destruct (is_empty selected) eqn:E.
  - cbn. split; [contradiction | intros [H _]; discriminate H].
  - split.
    + intros Hr. apply (Permutation_in _ (sort_permutation _ _)) in Hr.
      apply filter_In in Hr. tauto.
    + intros (_ & Hr & Hp).
      apply (Permutation_in _ (Permutation_sym (sort_permutation _ _))).
      apply filter_In. tauto.
Qed.

Lemma passes_name (selected equipment : string) (r : LifterRecord) :
  passes selected equipment r = true -> Name r = selected.
Proof.
  unfold passes. intros H. apply andb_true_iff in H as [H _].
  apply String.eqb_eq. exact H.
Qed.

Lemma passes_All (selected : string) (r : LifterRecord) :
  passes selected "All" r = String.eqb (Name r) selected.
Proof. unfold passes. cbn. apply andb_true_r. Qed.

(** *** Dates that read back *)

Lemma readable_time (r : LifterRecord) :
  readable r = true -> time_of (MeetDate r) = Some (date_key r).
Proof.
  unfold readable, date_key.
  destruct (time_of (MeetDate r)); [reflexivity | discriminate].
Qed.

Lemma by_date_readable (a b : LifterRecord) :
  readable a = true -> readable b = true ->
  SortCompare by_date a b = by_key date_key a b.
Proof.
  intros Ha Hb. unfold SortCompare, by_date, by_key.
  rewrite (readable_time a Ha), (readable_time b Hb). reflexivity.
Qed.

Lemma by_date_unreadable (a b : LifterRecord) :
  readable a = false \/ readable b = false -> SortCompare by_date a b = 0.
Proof.
  unfold readable, SortCompare, by_date.
  destruct (time_of (MeetDate a)), (time_of (MeetDate b));
    intros [H | H]; try discriminate H; reflexivity.
Qed.

Lemma sort_by_date (l : list LifterRecord) :
  (forall r, In r l -> readable r = true) ->
  sort (SortCompare by_date) l = sort (by_key date_key) l.
Proof.
  intros H. apply sort_ext. intros a b Ha Hb. apply by_date_readable; auto.
Qed.

Lemma dated_le_iff (a b : LifterRecord) :
  dated_le a b <-> readable a = true /\ readable b = true /\ key_le date_key a b.
Proof.
  unfold dated_le, date_le, readable, key_le, date_key.
  destruct (time_of (MeetDate a)), (time_of (MeetDate b)); split;
    try contradiction; try tauto;
    intros (H1 & H2 & _); discriminate.
Qed.

Lemma sorted_dated_le (l : list LifterRecord) :
  (forall r, In r l -> readable r = true) ->
  StronglySorted (key_le date_key) l -> StronglySorted dated_le l.
Proof.
  intros Hr Hs. induction Hs as [|x t Ht IH Hx]; constructor.
  - apply IH. intros r Hin. apply Hr. now right.
  - apply List.Forall_forall. intros y Hy. apply dated_le_iff.
    rewrite List.Forall_forall in Hx.
    split; [apply Hr; now left|]. split; [apply Hr; now right | now apply Hx].
Qed.

Lemma sorted_key_le (l : list LifterRecord) :
  StronglySorted dated_le l -> StronglySorted (key_le date_key) l.
Proof.
  induction 1 as [|x t Ht IH Hx]; constructor; [exact IH|].
  eapply List.Forall_impl; [|exact Hx]. intros y Hy.
  apply dated_le_iff in Hy. tauto.
Qed.

(** An array in the order of its dates is left as it is. *)
Lemma sort_dated (l : list LifterRecord) :
  StronglySorted dated_le l -> sort (SortCompare by_date) l = l.
Proof.
  induction 1 as [|x t Ht IH Hx]; [reflexivity|].
  change (sort (SortCompare by_date) (x :: t))
    with (insert_sorted (SortCompare by_date) x (sort (SortCompare by_date) t)).
  rewrite IH. destruct t as [|y t']; [reflexivity|]. cbn [insert_sorted].
  inversion_clear Hx as [|? ? Hy _]. apply dated_le_iff in Hy as (Ha & Hb & Hk).
  rewrite (by_date_readable x y Ha Hb). unfold by_key. unfold key_le in Hk.
  replace (date_key x - date_key y <=? 0) with true; [reflexivity|].
  symmetry. apply Z.leb_le. lia.
Qed.

Lemma filtered_by_key (rows : list LifterRecord) (selected equipment : string) :
  (forall r, In r rows -> passes selected equipment r = true -> readable r = true) ->
  filtered rows selected equipment =
  if is_empty selected then []
  else sort (by_key date_key) (List.filter (passes selected equipment) rows).
Proof.
  intros H. rewrite filtered_passes. destruct (is_empty selected); [reflexivity|].
  apply sort_by_date. intros r Hr. apply filter_In in Hr as [Hin Hp]. auto.
Qed.

Lemma filtered_sorted (rows : list LifterRecord) (selected equipment : string) :
  (forall r, In r rows -> passes selected equipment r = true -> readable r = true) ->
  StronglySorted dated_le (filtered rows selected equipment).
Proof.
  intros H. rewrite (filtered_by_key _ _ _ H).
  destruct (is_empty selected); [constructor|].
  apply sorted_dated_le; [|apply sort_sorted].
  intros r Hr. apply (Permutation_in _ (sort_perm date_key _)) in Hr.
  apply filter_In in Hr as [Hin Hp]. auto.
Qed.

(** The result for one equipment filter out of the result for "All",
    when the dates read back. *)
Lemma filtered_of_All (rows : list LifterRecord) (selected equipment : string) :
  (forall r, In r rows -> Name r = selected -> readable r = true) ->
  filtered rows selected equipment
  = List.filter (passes selected equipment) (filtered rows selected "All").
Proof.
  intros H.
  rewrite (filtered_by_key rows selected equipment)
    by (intros r Hr Hp; apply H; [exact Hr | exact (passes_name _ _ _ Hp)]).
  rewrite (filtered_by_key rows selected "All")
    by (intros r Hr Hp; apply H; [exact Hr | exact (passes_name _ _ _ Hp)]).
  destruct (is_empty selected); [reflexivity|].
  rewrite filter_sort, filter_twice. f_equal.
  apply filter_agree. intros a _. rewrite passes_All. unfold passes.
  destruct (String.eqb (Name a) selected); reflexivity.
Qed.

Lemma filtered_passes_In (rows : list LifterRecord) (selected equipment : string)
  (p : LifterRecord -> bool) :
  (forall r, passes selected equipment r = passes selected "All" r && p r) ->
  Permutation (filtered rows selected equipment)
    (List.filter p (filtered rows selected "All")).
Proof.
  intros Hp. rewrite !filtered_passes.
  destruct (is_empty selected); [reflexivity|].
  rewrite sort_permutation.
  rewrite (filter_permutation p _ _ (sort_permutation _ _)).
  rewrite filter_twice.
  rewrite (filter_agree _ _ rows (fun a _ => Hp a)). reflexivity.
Qed.

(** C7: with the filter "Raw" the result holds exactly the records of
    the result of "All" whose equipment mentions raw, each as often,
    with "Equipped" exactly the others, and "All" keeps every record of
    the selected name.  A record mentions raw when its equipment has an
    [r], an [a] and a [w] in a row, each in either case.  When the date
    of every record of the selected name reads back as a date, the
    order is that of the result of "All" too. *)
Theorem C7_equipment_filter :
  forall (rows : list LifterRecord) (selected : string),
    Permutation (filtered rows selected "Raw")
      (List.filter mentions_raw (filtered rows selected "All"))
    /\ Permutation (filtered rows selected "Equipped")
         (List.filter (fun r => negb (mentions_raw r)) (filtered rows selected "All"))
    /\ Permutation (filtered rows selected "All")
         (if is_empty selected then []
          else List.filter (fun r => String.eqb (Name r) selected) rows)
    /\ (forall r, In r (filtered rows selected "Raw") -> mentions_raw r = true)
    /\ (forall r, In r (filtered rows selected "Equipped") -> mentions_raw r = false)
    /\ (forall r, mentions_raw r = true <->
          exists pre c1 c2 c3 post,
            Equipment r = (pre ++ String c1 (String c2 (String c3 post)))%string
            /\ (c1 = "r" \/ c1 = "R")%char
            /\ (c2 = "a" \/ c2 = "A")%char
            /\ (c3 = "w" \/ c3 = "W")%char)
    /\ ((forall r, In r rows -> Name r = selected -> readable r = true) ->
        filtered rows selected "Raw"
        = List.filter mentions_raw (filtered rows selected "All")
        /\ filtered rows selected "Equipped"
           = List.filter (fun r => negb (mentions_raw r)) (filtered rows selected "All")).
Proof.
  intros rows selected.
  assert (HR : forall r, passes selected "Raw" r = passes selected "All" r && mentions_raw r)
    by (intros r; unfold passes; cbn; rewrite andb_true_r; reflexivity).
  assert (HE : forall r, passes selected "Equipped" r
                         = passes selected "All" r && negb (mentions_raw r))
    by (intros r; unfold passes; cbn; rewrite andb_true_r; reflexivity).
  split; [exact (filtered_passes_In rows selected "Raw" _ HR)|].
  split; [exact (filtered_passes_In rows selected "Equipped" _ HE)|].
  split; [exact (filtered_perm rows selected "All")|].
  split; [|split; [|split]].
  - intros r Hr. apply filtered_In in Hr as (_ & _ & Hp).
    rewrite HR in Hp. apply andb_true_iff in Hp. tauto.
  - intros r Hr. apply filtered_In in Hr as (_ & _ & Hp).
    rewrite HE in Hp. apply andb_true_iff in Hp as [_ Hp].
    apply negb_true_iff. exact Hp.
  - intros r. unfold mentions_raw. rewrite js_or_text_Some, includes_raw.
    split; intros (pre & c1 & c2 & c3 & post & H & H1 & H2 & H3);
      exists pre, c1, c2, c3, post; (split; [exact H|]).
    + apply lower_char_r in H1. apply lower_char_a in H2. apply lower_char_w in H3. auto.
    + apply lower_char_r in H1. apply lower_char_a in H2. apply lower_char_w in H3. auto.
  - intros H. split.
    + rewrite (filtered_of_All rows selected "Raw" H).
      apply filter_agree. intros a Ha. apply filtered_In in Ha as (_ & _ & Hp).
      rewrite HR, Hp. reflexivity.
    + rewrite (filtered_of_All rows selected "Equipped" H).
      apply filter_agree. intros a Ha. apply filtered_In in Ha as (_ & _ & Hp).
      rewrite HE, Hp. reflexivity.
Qed.

Lemma C7_equipment_filter_witness :
  In (row_record Date_parse_iso row_ann_1969) (filtered records_ann "Ann" "Raw")
  /\ mentions_raw (row_record Date_parse_iso row_ann_1969) = true
  /\ (exists pre c1 c2 c3 post,
       Equipment (row_record Date_parse_iso row_ann_1969)
       = (pre ++ String c1 (String c2 (String c3 post)))%string
       /\ (c1 = "r" \/ c1 = "R")%char
       /\ (c2 = "a" \/ c2 = "A")%char
       /\ (c3 = "w" \/ c3 = "W")%char)
  /\ (forall r, In r records_ann -> Name r = "Ann" -> readable r = true)
  /\ filtered records_ann "Ann" "Raw"
     = List.filter mentions_raw (filtered records_ann "Ann" "All").
Proof.
  destruct (C7_equipment_filter records_ann "Ann") as (_ & _ & _ & Hin & _ & Hiff & Heq).
  assert (Hr : In (row_record Date_parse_iso row_ann_1969)
                 (filtered records_ann "Ann" "Raw"))
    by (vm_compute; left; reflexivity).
  assert (Hd : forall r, In r records_ann -> Name r = "Ann" -> readable r = true).
  { intros r Hin' _. vm_compute in Hin'.
    destruct Hin' as [<- | [<- | [<- | []]]]; vm_compute; reflexivity. }
  split; [exact Hr|]. split; [exact (Hin _ Hr)|].
  split; [apply Hiff; exact (Hin _ Hr)|].
  split; [exact Hd|]. exact (proj1 (Heq Hd)).
Defined.

(** *** A date on the first days that a [Date] can hold *)

Lemma MeetDate_row_record (Date_parse : string -> option Z) (r : gmap string string)
  (s : string) (t : Z) :
  js_or (js_or (js_or (r !! "MeetDate") (r !! "meet_date")) (r !! "date"))
    (r !! "meetdate") = Some s ->
  s <> "" -> Date_parse s = Some t ->
  MeetDate (row_record Date_parse r) = Some (toISOString_slice10 t).
Proof.
  intros Hc Hs Ht. unfold row_record. cbn [MeetDate]. rewrite Hc.
  unfold parseDate. cbn [truthy]. apply is_empty_false in Hs. rewrite Hs. cbn [negb].
  rewrite Ht. reflexivity.
Qed.

Lemma MeetDate_row_record_None (Date_parse : string -> option Z) (r : gmap string string)
  (s : string) :
  js_or (js_or (js_or (r !! "MeetDate") (r !! "meet_date")) (r !! "date"))
    (r !! "meetdate") = Some s ->
  Date_parse s = None ->
  MeetDate (row_record Date_parse r) = None.
Proof.
  intros Hc Ht. unfold row_record. cbn [MeetDate]. rewrite Hc.
  unfold parseDate. destruct (negb (truthy (Some s))); [reflexivity|].
  rewrite Ht. reflexivity.
Qed.

(** Three records of which the second has a date that does not read
    back: every comparison the sort makes gives [NaN], and the array is
    left as it is. *)
Lemma sort_around_unreadable (a b c : LifterRecord) :
  readable b = false ->
  sort (SortCompare by_date) [a; b; c] = [a; b; c].
Proof.
  intros Hb. cbn [sort fold_right insert_sorted].
  rewrite (by_date_unreadable b c) by (left; exact Hb).
  change (0 <=? 0) with true. cbn [insert_sorted].
  rewrite (by_date_unreadable a b) by (right; exact Hb). reflexivity.
Qed.

Lemma filtered_three_of_Ann (a b c : LifterRecord) :
  Name a = "Ann" -> Name b = "Ann" -> Name c = "Ann" ->
  readable b = false ->
  filtered [a; b; c] "Ann" "All" = [a; b; c].
Proof.
  intros Ha Hb Hc Hr. rewrite filtered_passes. cbn [is_empty List.filter].
  rewrite !passes_All, Ha, Hb, Hc. cbn [String.eqb Ascii.eqb Bool.eqb andb].
  apply sort_around_unreadable. exact Hr.
Qed.

(** C8: the result is not in the order of the dates when a meet is
    dated on the first day that a [Date] can hold.  [parseDate] keeps
    the ten characters [-271821-04] of it, which read back as an
    Invalid Date; the comparison function then returns [NaN] and, with
    that record between them, the meet of 2020 stays ahead of the meet
    of 1999. *)
Theorem C8_first_day_is_not_sorted :
  forall (Date_parse : string -> option Z),
    Date_parse "2020-01-05" = Some (days_from_civil 2020 1 5 * msPerDay) ->
    Date_parse "-271821-04-20" = Some (days_from_civil (-271821) 4 20 * msPerDay) ->
    Date_parse "1999-01-01" = Some (days_from_civil 1999 1 1 * msPerDay) ->
    let rows := processCsvData Date_parse [row_ann_2020; row_ann_first_day; row_ann_1999] in
    List.map MeetDate rows
    = [Some (days_from_civil 2020 1 5); Some (days_from_civil (-271821) 4 1);
       Some (days_from_civil 1999 1 1)]
    /\ time_of (Some (days_from_civil (-271821) 4 1)) = None
    /\ filtered rows "Ann" "All" = rows
    /\ ~ (forall (i j : nat) a b da db,
            filtered rows "Ann" "All" !! i = Some a ->
            filtered rows "Ann" "All" !! j = Some b ->
            MeetDate a = Some da -> MeetDate b = Some db ->
            da < db -> (i < j)%nat).
Proof.
  intros dp H1 H2 H3 rows.
  assert (D1 : MeetDate (row_record dp row_ann_2020) = Some (days_from_civil 2020 1 5))
    by (rewrite (MeetDate_row_record dp row_ann_2020 "2020-01-05" _ eq_refl ltac:(discriminate) H1);
        reflexivity).
  assert (D2 : MeetDate (row_record dp row_ann_first_day)
               = Some (days_from_civil (-271821) 4 1))
    by (rewrite (MeetDate_row_record dp row_ann_first_day "-271821-04-20" _ eq_refl
                 ltac:(discriminate) H2); reflexivity).
  assert (D3 : MeetDate (row_record dp row_ann_1999) = Some (days_from_civil 1999 1 1))
    by (rewrite (MeetDate_row_record dp row_ann_1999 "1999-01-01" _ eq_refl ltac:(discriminate) H3);
        reflexivity).
  assert (Hf : filtered rows "Ann" "All" = rows).
  { apply filtered_three_of_Ann; try reflexivity.
    unfold readable. rewrite D2. reflexivity. }
  split; [|split; [reflexivity|split; [exact Hf|]]].
  - subst rows. unfold processCsvData. cbn [List.map]. rewrite D1, D2, D3. reflexivity.
  - intros Hall. rewrite Hf in Hall.
    specialize (Hall 2%nat 0%nat (row_record dp row_ann_1999) (row_record dp row_ann_2020)
                  (days_from_civil 1999 1 1) (days_from_civil 2020 1 5)
                  eq_refl eq_refl D3 D1 eq_refl).
    lia.
Qed.

Lemma C8_first_day_is_not_sorted_witness :
  Date_parse_expanded "-271821-04-20" = Some (- maxTime)
  /\ List.map MeetDate
       (filtered (processCsvData Date_parse_expanded
                    [row_ann_2020; row_ann_first_day; row_ann_1999]) "Ann" "All")
     = [Some (days_from_civil 2020 1 5); Some (days_from_civil (-271821) 4 1);
        Some (days_from_civil 1999 1 1)].
Proof.
  split; [reflexivity|].
  destruct (C8_first_day_is_not_sorted Date_parse_expanded eq_refl eq_refl eq_refl)
    as (Hm & _ & Hf & _).
  rewrite Hf. exact Hm.
Defined.

(** C10: a record without a date does not stand before every record
    dated after 1970-01-01.  The comparison function does compare it
    as the epoch, yet next to a record whose date does not read back
    (the same defect as in C8) every comparison gives [NaN] and the
    record without a date stays behind the meet of 2020. *)
Theorem C10_undated_behind_a_later_date :
  forall (Date_parse : string -> option Z),
    Date_parse "2020-01-05" = Some (days_from_civil 2020 1 5 * msPerDay) ->
    Date_parse "-271821-04-20" = Some (days_from_civil (-271821) 4 20 * msPerDay) ->
    Date_parse "n/a" = None ->
    let rows := processCsvData Date_parse
                  [row_ann_2020; row_ann_first_day; row_ann_undated] in
    let a := row_record Date_parse row_ann_undated in
    let b := row_record Date_parse row_ann_2020 in
    MeetDate a = None
    /\ MeetDate b = Some (days_from_civil 2020 1 5)
    /\ by_date a b = Some (0 - days_from_civil 2020 1 5 * msPerDay)
    /\ filtered rows "Ann" "All" = rows
    /\ filtered rows "Ann" "All" !! 2%nat = Some a
    /\ filtered rows "Ann" "All" !! 0%nat = Some b
    /\ days_from_civil 1970 1 1 < days_from_civil 2020 1 5.
Proof.
  intros dp H1 H2 H3 rows a b.
  assert (Da : MeetDate a = None)
    by (apply (MeetDate_row_record_None dp row_ann_undated "n/a" eq_refl H3)).
  assert (Db : MeetDate b = Some (days_from_civil 2020 1 5))
    by (subst b; rewrite (MeetDate_row_record dp row_ann_2020 "2020-01-05" _ eq_refl
                          ltac:(discriminate) H1); reflexivity).
  assert (D2 : MeetDate (row_record dp row_ann_first_day)
               = Some (days_from_civil (-271821) 4 1))
    by (rewrite (MeetDate_row_record dp row_ann_first_day "-271821-04-20" _ eq_refl
                 ltac:(discriminate) H2); reflexivity).
  assert (Hf : filtered rows "Ann" "All" = rows).
  { apply filtered_three_of_Ann; try reflexivity.
    unfold readable. rewrite D2. reflexivity. }
  split; [exact Da|]. split; [exact Db|]. split.
  - unfold by_date. rewrite Da, Db. reflexivity.
  - split; [exact Hf|]. rewrite Hf. repeat split.
Qed.

Lemma C10_undated_behind_a_later_date_witness :
  List.map MeetDate
    (filtered (processCsvData Date_parse_expanded
                 [row_ann_2020; row_ann_first_day; row_ann_undated]) "Ann" "All")
  = [Some (days_from_civil 2020 1 5); Some (days_from_civil (-271821) 4 1); None].
Proof.
  destruct (C10_undated_behind_a_later_date Date_parse_expanded eq_refl eq_refl eq_refl)
    as (_ & _ & _ & Hf & _).
  rewrite Hf. reflexivity.
Defined.

Example filtered_ann :
  List.map MeetDate (filtered records_ann "Ann" "All") = [Some (-1); None; Some 1]
  /\ List.map MeetDate (filtered records_ann "Ann" "Raw") = [Some (-1); Some 1]
  /\ List.map MeetDate (filtered records_ann "Ann" "Equipped") = [None].
Proof. repeat split. Qed.

Lemma survivors_no_match (rows : list LifterRecord) (selected equipment : string) :
  (forall r, In r rows -> Name r <> selected) ->
  survivors rows selected equipment = [].
Proof.
  intros H. unfold survivors.
  assert (E : List.filter (fun r => String.eqb (Name r) selected) rows = []).
  { induction rows as [|r t IH]; [reflexivity|]. cbn.
    destruct (String.eqb (Name r) selected) eqn:Er.
    - apply String.eqb_eq in Er. exfalso. apply (H r); [now left | exact Er].
    - apply IH. intros r' Hr'. apply H. now right. }
  rewrite E. destruct (negb _), (String.eqb equipment "Raw"); reflexivity.
Qed.

(** C9, as the code has it: there is one series for each active lift,
    in the order of the keys of [lifts], so none when no lift is active;
    when no record has the selected name the result of the filters is
    empty and every series has no point. *)
Theorem C9_one_series_per_active_lift :
  forall (rows : list LifterRecord) (selected equipment : string)
         (lifts : lifts_state) (unit_ : string),
    let series := traces (filtered rows selected equipment) lifts unit_ in
    List.map name series
      = List.map fst (List.filter (fun kv => snd kv) (entries lifts))
    /\ (List.filter (fun kv : lift * bool => snd kv) (entries lifts) = [] -> series = [])
    /\ ((forall r, In r rows -> Name r <> selected) ->
        filtered rows selected equipment = []
        /\ forall t, In t series -> x t = [] /\ y t = []).
Proof.
  intros rows selected equipment lifts unit_ series. subst series.
  unfold traces. split; [|split].
  - rewrite List.map_map. cbn [name]. apply List.map_id.
  - intros ->. reflexivity.
  - intros Hno.
    assert (E : filtered rows selected equipment = []).
    { unfold filtered. destruct (is_empty selected); [reflexivity|].
      rewrite survivors_no_match by exact Hno. reflexivity. }
    split; [exact E|]. rewrite E. intros t Ht.
    apply in_map_iff in Ht as (l & <- & _). split; reflexivity.
Qed.

Lemma C9_one_series_per_active_lift_witness :
  traces (filtered records_ann "Bob" "All")
    {| lifts_Squat := false; lifts_Bench := false;
       lifts_Deadlift := false; lifts_Total := false |} "kg" = []
  /\ (forall r, In r records_ann -> Name r <> "Bob")
  /\ filtered records_ann "Bob" "All" = [].
Proof.
  assert (Hno : forall r, In r records_ann -> Name r <> "Bob").
  { intros r Hr. vm_compute in Hr.
    destruct Hr as [<- | [<- | [<- | []]]]; vm_compute; discriminate. }
  split; [|split; [exact Hno|]].
  - apply (C9_one_series_per_active_lift records_ann "Bob" "All"). reflexivity.
  - apply (C9_one_series_per_active_lift records_ann "Bob" "All" initial_lifts "kg").
    exact Hno.
Defined.

(** C9, as the design document has it, fails: with no matching record
    and the lifts of the opening page there are three series. *)
Lemma C9_no_match_still_has_series :
  filtered [] "Jane Doe" "All" = []
  /\ List.length (traces (filtered [] "Jane Doe" "All") initial_lifts "kg") = 3%nat
  /\ traces (filtered [] "Jane Doe" "All") initial_lifts "kg" <> [].
Proof. repeat split. vm_compute. discriminate. Qed.

(** The scenario of the design document: two meets of Jane Doe. *)
Example jane_doe_squat :
  let rows := processCsvData Date_parse_iso [row_jane_2021; row_jane_2020] in
  let lifts := {| lifts_Squat := true; lifts_Bench := false;
                  lifts_Deadlift := false; lifts_Total := false |} in
  List.map (fun t => (x t, y t)) (traces (filtered rows "Jane Doe" "All") lifts "kg")
  = [ ([Some (days_from_civil 2020 1 5); Some (days_from_civil 2021 3 10)],
       [Some (Number "100"); Some (Number "105")]) ].
Proof. vm_compute. reflexivity. Qed.

End QueryFacts.

(** * Further properties *)



(** ** The result of [filtered] and the series *)

Section MoreQueryFacts.
Import JSString JSNumber JSDate JSArray Data App Reading Selection.

(** X1: [filtered] returns only records that are among the rows and bear the
    selected name, and none when no name is selected; with "Raw" each
    mentions raw, and with any value other than "All" and "Raw" none
    does. *)
Theorem filtered_only_selected :
  forall (rows : list LifterRecord) (selected equipment : string) (r : LifterRecord),
    In r (filtered rows selected equipment) ->
    In r rows /\ Name r = selected /\ selected <> ""
    /\ (equipment = "Raw" -> mentions_raw r = true)
    /\ (equipment <> "All" -> equipment <> "Raw" -> mentions_raw r = false).
Proof.
  intros rows selected equipment r Hr.
  apply filtered_In in Hr as (Hs & Hin & Hp).
  split; [exact Hin|]. split; [exact (passes_name _ _ _ Hp)|]. split; [exact Hs|].
  unfold passes in Hp. apply andb_true_iff in Hp as [_ Hp]. split.
  - intros ->. exact Hp.
  - intros HA HR. apply String.eqb_neq in HA, HR. rewrite HA, HR in Hp.
    apply negb_true_iff. exact Hp.
Qed.

Lemma filtered_only_selected_witness :
  In (row_record Date_parse_iso row_ann_undated) (filtered records_ann "Ann" "Equipped")
  /\ In (row_record Date_parse_iso row_ann_undated) records_ann
  /\ Name (row_record Date_parse_iso row_ann_undated) = "Ann"
  /\ mentions_raw (row_record Date_parse_iso row_ann_undated) = false.
Proof.
  assert (H : In (row_record Date_parse_iso row_ann_undated)
                (filtered records_ann "Ann" "Equipped"))
    by (vm_compute; left; reflexivity).
  destruct (filtered_only_selected records_ann "Ann" "Equipped" _ H)
    as (H1 & H2 & _ & _ & H3).
  split; [exact H|]. split; [exact H1|]. split; [exact H2|].
  apply H3; discriminate.
Defined.

(** X2: the results for "Raw" and for "Equipped" together are the result
    for "All", record for record, and share no record. *)
Theorem filtered_raw_equipped_split :
  forall (rows : list LifterRecord) (selected : string),
    Permutation (filtered rows selected "Raw" ++ filtered rows selected "Equipped")
                (filtered rows selected "All")
    /\ (List.length (filtered rows selected "Raw")
        + List.length (filtered rows selected "Equipped")
        = List.length (filtered rows selected "All"))%nat
    /\ forall r, ~ (In r (filtered rows selected "Raw")
                    /\ In r (filtered rows selected "Equipped")).
Proof.
  intros rows selected.
  assert (HR : forall r, passes selected "Raw" r = passes selected "All" r && mentions_raw r)
    by (intros r; unfold passes; cbn; rewrite andb_true_r; reflexivity).
  assert (HE : forall r, passes selected "Equipped" r
                         = passes selected "All" r && negb (mentions_raw r))
    by (intros r; unfold passes; cbn; rewrite andb_true_r; reflexivity).
  assert (Hp : Permutation (filtered rows selected "Raw" ++ filtered rows selected "Equipped")
                 (filtered rows selected "All")).
  { rewrite (filtered_passes_In rows selected "Raw" _ HR).
    rewrite (filtered_passes_In rows selected "Equipped" _ HE).
    apply filter_split_perm. }
  split; [exact Hp|]. split.
  - rewrite <- List.length_app. apply Permutation_length. exact Hp.
  - intros r [H1 H2].
    apply filtered_In in H1 as (_ & _ & H1). apply filtered_In in H2 as (_ & _ & H2).
    rewrite HR in H1. rewrite HE in H2.
    apply andb_true_iff in H1 as [_ H1]. apply andb_true_iff in H2 as [_ H2].
    rewrite H1 in H2. discriminate H2.
Qed.


Lemma same_date_key (r o : LifterRecord) :
  same_date r o = true -> date_key o = date_key r.
Proof.
  unfold same_date, date_key.
  destruct (time_of (MeetDate o)), (time_of (MeetDate r)); try discriminate.
  apply Z.eqb_eq.
Qed.

(** X3: the sort is stable: when the dates of the records that pass the
    filters read back as dates, the records of the result that have one
    and the same date stand in the order of the rows. *)
Theorem filtered_stable :
  forall (rows : list LifterRecord) (selected equipment : string) (r : LifterRecord),
    selected <> "" ->
    (forall o, In o rows -> passes selected equipment o = true -> readable o = true) ->
    List.filter (same_date r) (filtered rows selected equipment)
    = List.filter (fun o => passes selected equipment o && same_date r o) rows.
Proof.
  intros rows selected equipment r Hs Hd. apply is_empty_false in Hs.
  rewrite (filtered_by_key _ _ _ Hd), Hs, filter_sort, filter_twice.
  apply sort_same_key. intros a b Ha Hb.
  apply filter_In in Ha as [_ Ha]. apply filter_In in Hb as [_ Hb].
  apply andb_true_iff in Ha as [_ Ha]. apply andb_true_iff in Hb as [_ Hb].
  apply same_date_key in Ha, Hb. congruence.
Qed.

Lemma filter_keeps_order {A : Type} (R : A -> A -> Prop) (p : A -> bool) (l : list A) :
  StronglySorted R l -> StronglySorted R (List.filter p l).
Proof.
  induction 1 as [|x t Ht IH Hx]; [constructor|]. cbn [List.filter].
  destruct (p x); [|exact IH]. constructor; [exact IH|].
  apply List.Forall_forall. intros y Hy. apply filter_In in Hy as [Hy _].
  rewrite List.Forall_forall in Hx. now apply Hx.
Qed.

Lemma records_jane_readable (equipment : string) (o : LifterRecord) :
  In o records_jane -> passes "Jane Doe" equipment o = true -> readable o = true.
Proof.
  intros Ho _. vm_compute in Ho.
  destruct Ho as [<- | [<- | [<- | []]]]; vm_compute; reflexivity.
Defined.

Lemma filtered_stable_witness :
  "Jane Doe" <> ""
  /\ filtered records_jane "Jane Doe" "All"
     = [row_record Date_parse_iso row_jane_2020;
        row_record Date_parse_iso row_jane_2020_second;
        row_record Date_parse_iso row_jane_2021]
  /\ List.filter (same_date (row_record Date_parse_iso row_jane_2020))
       (filtered records_jane "Jane Doe" "All")
     = [row_record Date_parse_iso row_jane_2020;
        row_record Date_parse_iso row_jane_2020_second].
Proof.
  assert (Hs : "Jane Doe" <> "") by discriminate.
  split; [exact Hs|]. split; [vm_compute; reflexivity|].
  rewrite (filtered_stable records_jane "Jane Doe" "All"
             (row_record Date_parse_iso row_jane_2020) Hs (records_jane_readable "All")).
  vm_compute. reflexivity.
Defined.

Lemma filter_all {A : Type} (p : A -> bool) (l : list A) :
  (forall a, In a l -> p a = true) -> List.filter p l = l.
Proof.
  induction l as [|x t IH]; intros H; [reflexivity|]. cbn [List.filter].
  rewrite (H x) by now left. rewrite IH by (intros a Ha; apply H; now right).
  reflexivity.
Qed.

(** X4: when the dates of the records that pass the filters read back
    as dates, [filtered] applied to its own result, with the same
    selection, returns that result. *)
Theorem filtered_idempotent :
  forall (rows : list LifterRecord) (selected equipment : string),
    (forall r, In r rows -> passes selected equipment r = true -> readable r = true) ->
    filtered (filtered rows selected equipment) selected equipment
    = filtered rows selected equipment.
Proof.
  intros rows selected equipment Hd.
  pose proof (filtered_sorted rows selected equipment Hd) as Hsorted.
  rewrite (filtered_passes (filtered rows selected equipment)).
  destruct (is_empty selected) eqn:E; [rewrite filtered_eq, E; reflexivity|].
  rewrite filter_all
    by (intros a Ha; apply filtered_In in Ha as (_ & _ & Hp); exact Hp).
  apply sort_dated. exact Hsorted.
Qed.

Lemma filtered_idempotent_witness :
  filtered (filtered records_jane "Jane Doe" "All") "Jane Doe" "All"
  = [row_record Date_parse_iso row_jane_2020;
     row_record Date_parse_iso row_jane_2020_second;
     row_record Date_parse_iso row_jane_2021].
Proof.
  rewrite (filtered_idempotent records_jane "Jane Doe" "All" (records_jane_readable "All")).
  vm_compute. reflexivity.
Defined.

(** X5: when the rows are in the order of their dates, the result is
    the rows that pass the filters, in the order of the rows. *)
Theorem filtered_of_sorted_rows :
  forall (rows : list LifterRecord) (selected equipment : string),
    StronglySorted dated_le rows ->
    selected <> "" ->
    filtered rows selected equipment = List.filter (passes selected equipment) rows.
Proof.
  intros rows selected equipment Hsorted Hs. apply is_empty_false in Hs.
  rewrite filtered_passes, Hs. apply sort_dated.
  apply filter_keeps_order. exact Hsorted.
Qed.

Lemma filtered_of_sorted_rows_witness :
  StronglySorted dated_le records_jane_in_order
  /\ "Jane Doe" <> ""
  /\ filtered records_jane_in_order "Jane Doe" "All"
     = [row_record Date_parse_iso row_jane_2020; row_record Date_parse_iso row_jane_2021].
Proof.
  assert (Hsorted : StronglySorted dated_le records_jane_in_order).
  { repeat constructor. vm_compute. discriminate. }
  assert (Hs : "Jane Doe" <> "") by discriminate.
  split; [exact Hsorted|]. split; [exact Hs|].
  rewrite (filtered_of_sorted_rows records_jane_in_order "Jane Doe" "All" Hsorted Hs).
  vm_compute. reflexivity.
Defined.

Lemma TimeClip_Some (t v : Z) : TimeClip t = Some v -> v = t.
Proof. unfold TimeClip. destruct (Z.abs t <=? maxTime); congruence. Qed.

Lemma date_key_dated (r : LifterRecord) (d : isodate) :
  readable r = true -> MeetDate r = Some d -> date_key r = d * msPerDay.
Proof.
  unfold readable, date_key. intros Hr Hd. rewrite Hd in *. cbn [time_of] in *.
  destruct (TimeClip (d * msPerDay)) eqn:E; [|discriminate].
  exact (TimeClip_Some _ _ E).
Qed.

Lemma date_key_undated (r : LifterRecord) : MeetDate r = None -> date_key r = 0.
Proof. unfold date_key. intros ->. reflexivity. Qed.

(** X22: when the dates of the records that pass the filters read back
    as dates, the result is in ascending order of the time value of the
    date; of two records with dates the one with the earlier date stands
    first; and a record without a date stands where 1970-01-01 would:
    before every record dated later, after every record dated
    earlier. *)
Theorem filtered_in_date_order :
  forall (rows : list LifterRecord) (selected equipment : string),
    (forall r, In r rows -> passes selected equipment r = true -> readable r = true) ->
    StronglySorted dated_le (filtered rows selected equipment)
    /\ (forall (i j : nat) a b da db,
          filtered rows selected equipment !! i = Some a ->
          filtered rows selected equipment !! j = Some b ->
          MeetDate a = Some da -> MeetDate b = Some db ->
          da < db -> (i < j)%nat)
    /\ (forall (i j : nat) a b d,
          filtered rows selected equipment !! i = Some a ->
          filtered rows selected equipment !! j = Some b ->
          MeetDate a = None -> MeetDate b = Some d ->
          (days_from_civil 1970 1 1 < d -> (i < j)%nat)
          /\ (d < days_from_civil 1970 1 1 -> (j < i)%nat)).
Proof.
  intros rows selected equipment Hd.
  pose proof (filtered_sorted rows selected equipment Hd) as Hsorted.
  assert (Hr : forall i a, filtered rows selected equipment !! i = Some a ->
                           readable a = true).
  { intros i a Hi. apply list_elem_of_lookup_2, list_elem_of_In in Hi.
    apply filtered_In in Hi as (_ & Hin & Hp). auto. }
  pose proof (sorted_key_le _ Hsorted) as Hk.
  split; [exact Hsorted|]. split.
  - intros i j a b da db Hi Hj Ha Hb Hlt.
    apply (sorted_lookup_lt date_key _ i j a b Hk Hi Hj).
    rewrite (date_key_dated a da (Hr i a Hi) Ha), (date_key_dated b db (Hr j b Hj) Hb).
    unfold msPerDay. lia.
  - intros i j a b d Hi Hj Ha Hb. change (days_from_civil 1970 1 1) with 0. split; intros Hlt.
    + apply (sorted_lookup_lt date_key _ i j a b Hk Hi Hj).
      rewrite (date_key_undated a Ha), (date_key_dated b d (Hr j b Hj) Hb).
      unfold msPerDay. lia.
    + apply (sorted_lookup_lt date_key _ j i b a Hk Hj Hi).
      rewrite (date_key_undated a Ha), (date_key_dated b d (Hr j b Hj) Hb).
      unfold msPerDay. lia.
Qed.

Lemma filtered_in_date_order_witness :
  List.map MeetDate (filtered records_ann "Ann" "All")
  = [Some (days_from_civil 1969 12 31); None; Some (days_from_civil 1970 1 2)]
  /\ StronglySorted dated_le (filtered records_ann "Ann" "All")
  /\ (1 < 2)%nat /\ (0 < 1)%nat.
Proof.
  assert (Hd : forall r, In r records_ann -> passes "Ann" "All" r = true ->
                         readable r = true).
  { intros r Hin _. vm_compute in Hin.
    destruct Hin as [<- | [<- | [<- | []]]]; vm_compute; reflexivity. }
  destruct (filtered_in_date_order records_ann "Ann" "All" Hd) as (Hs & _ & He).
  split; [reflexivity|]. split; [exact Hs|]. split.
  - apply (He 1%nat 2%nat (row_record Date_parse_iso row_ann_undated)
             (row_record Date_parse_iso row_ann_1970) 1);
      vm_compute; reflexivity.
  - apply (He 1%nat 0%nat (row_record Date_parse_iso row_ann_undated)
             (row_record Date_parse_iso row_ann_1969) (-1));
      vm_compute; reflexivity.
Defined.

(** *** Series *)

Lemma traces_In (f : list LifterRecord) (lifts : lifts_state) (unit_ : string) (t : trace) :
  In t (traces f lifts unit_) <->
  lift_on (name t) lifts = true
  /\ t = {| x := List.map MeetDate f;
            y := List.map (magnitude (name t)
                             (if String.eqb unit_ "kg" then "Kg" else "Lb")) f;
            type := "scatter"; mode := "lines+markers"; name := name t |}.
Proof.
  unfold traces. rewrite in_map_iff. split.
  - intros (l & <- & Hl). cbn [name]. split; [|reflexivity].
    apply in_map_iff in Hl as ([l' b] & <- & Hl). apply filter_In in Hl as [Hin Hb].
    cbn [fst snd] in *. subst b. unfold entries in Hin. cbn [In] in Hin.
    destruct Hin as [H|[H|[H|[H|[]]]]]; injection H as <- H; exact H.
  - intros [Hon Ht]. exists (name t). split; [symmetry; exact Ht|].
    apply in_map_iff. exists (name t, true). split; [reflexivity|].
    apply filter_In. split; [|reflexivity].
    unfold entries. cbn [In]. destruct (name t); cbn [lift_on] in Hon; rewrite Hon; tauto.
Qed.

(** X6: every series has the dates of the result as [x], as many values
    as dates, one point for each row that passes the filters, and, when
    the dates of those rows read back as dates, its dates in ascending
    order of time. *)
Theorem traces_points :
  forall (rows : list LifterRecord) (selected equipment : string)
         (lifts : lifts_state) (unit_ : string) (t : trace),
    In t (traces (filtered rows selected equipment) lifts unit_) ->
    x t = List.map MeetDate (filtered rows selected equipment)
    /\ List.length (y t) = List.length (x t)
    /\ (selected <> "" ->
        List.length (x t) = List.length (List.filter (passes selected equipment) rows))
    /\ ((forall r, In r rows -> passes selected equipment r = true -> readable r = true) ->
        StronglySorted date_le (x t)).
Proof.
  intros rows selected equipment lifts unit_ t Ht.
  apply traces_In in Ht as [_ ->]. cbn [x y].
  split; [reflexivity|]. split; [rewrite !List.length_map; reflexivity|]. split.
  - intros Hs. apply is_empty_false in Hs.
    rewrite List.length_map, filtered_passes, Hs.
    apply Permutation_length. apply sort_permutation.
  - intros Hr. pose proof (filtered_sorted rows selected equipment Hr) as Hsorted.
    clear Hr. induction Hsorted as [|a l Hl IH Ha]; [constructor|].
    cbn [List.map]. constructor; [exact IH|].
    apply List.Forall_forall. intros d Hd. apply in_map_iff in Hd as (b & <- & Hb).
    rewrite List.Forall_forall in Ha. apply (Ha b Hb).
Qed.

Lemma traces_points_witness :
  exists t : trace,
    In t (traces (filtered records_jane "Jane Doe" "All") initial_lifts "kg")
    /\ name t = Squat
    /\ List.length (x t) = 3%nat
    /\ List.length (y t) = List.length (x t)
    /\ StronglySorted date_le (x t).
Proof.
  set (t := {| x := List.map MeetDate (filtered records_jane "Jane Doe" "All");
              y := List.map (magnitude Squat "Kg") (filtered records_jane "Jane Doe" "All");
              type := "scatter"; mode := "lines+markers"; name := Squat |}).
  assert (Ht : In t (traces (filtered records_jane "Jane Doe" "All") initial_lifts "kg"))
    by (left; reflexivity).
  destruct (traces_points records_jane "Jane Doe" "All" initial_lifts "kg" t Ht)
    as (_ & Hy & Hl & Hx).
  exists t. split; [exact Ht|]. split; [reflexivity|].
  split; [|split; [exact Hy | exact (Hx (records_jane_readable "All"))]].
  rewrite Hl by discriminate. vm_compute. reflexivity.
Defined.

(** X7: with any unit other than "kg", the series over ingested records
    are those for "kg" with every value converted by [pounds]; names,
    dates and the number of points are the same. *)
Theorem traces_in_pounds :
  forall (Date_parse : string -> option Z) (raw : list (gmap string string))
         (selected equipment : string) (lifts : lifts_state) (unit_ : string),
    unit_ <> "kg" ->
    let f := filtered (processCsvData Date_parse raw) selected equipment in
    traces f lifts unit_
    = List.map (fun t => {| x := x t; y := List.map pounds (y t);
                            type := type t; mode := mode t; name := name t |})
        (traces f lifts "kg").
Proof.
  intros dp raw selected equipment lifts unit_ Hu f. unfold traces.
  apply String.eqb_neq in Hu. rewrite Hu.
  rewrite !List.map_map. apply List.map_ext. intros l. cbn [x y type mode name].
  f_equal. rewrite List.map_map. apply List.map_ext_in. intros o Ho.
  apply filtered_In in Ho as (_ & Ho & _).
  apply in_map_iff in Ho as (r & <- & _).
  apply (lift_fields dp r (fst l)).
Qed.

Lemma traces_in_pounds_witness :
  "lb" <> "kg"
  /\ List.map y (traces (filtered (processCsvData Date_parse_iso [row_jane_2020])
                           "Jane Doe" "All") initial_lifts "lb")
     = [[Some (Number "220.46")]; [None]; [None]].
Proof.
  assert (Hu : "lb" <> "kg") by discriminate.
  split; [exact Hu|].
  rewrite (traces_in_pounds Date_parse_iso [row_jane_2020] "Jane Doe" "All"
             initial_lifts "lb" Hu).
  vm_compute. reflexivity.
Defined.

(** X8: the series stand in the order Squat, Bench, Deadlift, Total,
    each lift at most once, and a lift has a series exactly when its
    switch is on. *)
Theorem traces_order :
  forall (f : list LifterRecord) (lifts : lifts_state) (unit_ : string),
    StronglySorted (fun a b => lift_rank a < lift_rank b)
      (List.map name (traces f lifts unit_))
    /\ (List.length (traces f lifts unit_) <= 4)%nat
    /\ forall l, In l (List.map name (traces f lifts unit_)) <-> lift_on l lifts = true.
Proof.
  intros f lifts unit_.
  assert (E : List.map name (traces f lifts unit_)
              = List.map fst (List.filter (fun kv => snd kv) (entries lifts))).
  { unfold traces. rewrite List.map_map. apply List.map_id. }
  split; [|split].
  - rewrite E. destruct lifts as [[] [] [] []]; cbn;
      repeat (constructor; [|repeat constructor; cbn; lia]); constructor.
  - rewrite <- (List.length_map name), E.
    destruct lifts as [[] [] [] []]; cbn; lia.
  - intros l. rewrite E.
    destruct lifts as [[] [] [] []], l; cbn; split; intros H;
      first [ reflexivity
            | discriminate H
            | exfalso; repeat (destruct H as [H|H]; [discriminate H|]); exact H
            | auto 6 ].
Qed.

(** X9: after a switch is set, the series of that lift is there exactly
    when the switch is on, and the series of the other lifts are the
    ones there were. *)
Theorem set_lift_traces :
  forall (f : list LifterRecord) (lifts : lifts_state) (unit_ : string)
         (k : lift) (checked : bool) (t : trace),
    In t (traces f (set_lift k checked lifts) unit_) <->
    (if lift_eqb (name t) k
     then checked = true
          /\ t = {| x := List.map MeetDate f;
                    y := List.map (magnitude k
                                     (if String.eqb unit_ "kg" then "Kg" else "Lb")) f;
                    type := "scatter"; mode := "lines+markers"; name := k |}
     else In t (traces f lifts unit_)).
Proof.
  intros f lifts unit_ k checked t.
  destruct t as [tx ty tt tm tn]. cbn [name].
  destruct k, tn; cbn [lift_eqb lift_rank Z.eqb Pos.eqb]; rewrite !traces_In;
    cbn [name set_lift lift_on lifts_Squat lifts_Bench lifts_Deadlift lifts_Total];
    reflexivity.
Qed.

End MoreQueryFacts.


(** ** The list of names *)

Section NamesFacts.
Import JSString JSNumber JSDate JSArray Data App Reading Selection.

Lemma ascii_compare_trans (a b c : ascii) :
  Ascii.compare a b <> Gt -> Ascii.compare b c <> Gt ->
  Ascii.compare a c <> Gt
  /\ (Ascii.compare a c = Eq -> Ascii.compare a b = Eq /\ Ascii.compare b c = Eq).
Proof.
  unfold Ascii.compare.
  destruct (N.compare_spec (N_of_ascii a) (N_of_ascii b)) as [Eab|Lab|Gab],
           (N.compare_spec (N_of_ascii b) (N_of_ascii c)) as [Ebc|Lbc|Gbc],
           (N.compare_spec (N_of_ascii a) (N_of_ascii c)) as [Eac|Lac|Gac];
    intros Hab Hbc; split; try congruence; try lia; intros _; split;
    try congruence; lia.
Qed.

Lemma string_compare_trans (a b c : string) :
  String.compare a b <> Gt -> String.compare b c <> Gt -> String.compare a c <> Gt.
Proof.
  revert b c. induction a as [|x a IH]; intros [|y b] [|z c]; cbn; try congruence.
  intros H1 H2.
  destruct (Ascii.compare x y) eqn:Exy; [| |congruence];
    destruct (Ascii.compare y z) eqn:Eyz; try congruence.
  - apply Ascii.compare_eq_iff in Exy, Eyz. subst y z.
    replace (Ascii.compare x x) with Eq
      by (symmetry; unfold Ascii.compare; apply N.compare_refl).
    now apply (IH b c).
  - apply Ascii.compare_eq_iff in Exy. subst y. rewrite Eyz. congruence.
  - apply Ascii.compare_eq_iff in Eyz. subst z. rewrite Exy. congruence.
  - destruct (ascii_compare_trans x y z) as [Hn He]; try congruence.
    destruct (Ascii.compare x z) eqn:Exz; try congruence.
    destruct (He eq_refl). congruence.
Qed.

Lemma default_compare_total (a b : string) :
  0 < default_compare a b -> default_compare b a <= 0.
Proof.
  unfold default_compare. rewrite (String.compare_antisym b a).
  destruct (String.compare a b); cbn; lia.
Qed.

Lemma default_compare_le (a b : string) :
  default_compare a b <= 0 <-> String.compare a b <> Gt.
Proof. unfold default_compare. destruct (String.compare a b); split; (congruence || lia). Qed.

Lemma default_compare_trans (a b c : string) :
  default_compare a b <= 0 -> default_compare b c <= 0 -> default_compare a c <= 0.
Proof. rewrite !default_compare_le. apply string_compare_trans. Qed.

Lemma existsb_eqb (v : string) (l : list string) :
  existsb (String.eqb v) l = true <-> In v l.
Proof.
  rewrite existsb_exists. split.
  - intros (x & Hx & E). apply String.eqb_eq in E. now subst.
  - intros H. exists v. split; [exact H | apply String.eqb_refl].
Qed.

Lemma set_add_all_In (seen l : list string) (v : string) :
  In v (set_add_all seen l) <-> In v seen \/ In v l.
Proof.
  revert seen. induction l as [|w t IH]; intros seen; cbn [set_add_all].
  - cbn. tauto.
  - destruct (existsb (String.eqb w) seen) eqn:E; rewrite IH.
    + apply existsb_eqb in E. cbn. split; [tauto|]. intros [H|[<-|H]]; tauto.
    + rewrite in_app_iff. cbn. tauto.
Qed.

Lemma set_add_all_NoDup (seen l : list string) :
  List.NoDup seen -> List.NoDup (set_add_all seen l).
Proof.
  revert seen. induction l as [|w t IH]; intros seen Hs; cbn [set_add_all]; [exact Hs|].
  destruct (existsb (String.eqb w) seen) eqn:E; apply IH; [exact Hs|].
  assert (Hw : ~ In w seen).
  { intros H. apply existsb_eqb in H. congruence. }
  apply List.NoDup_app; [exact Hs | repeat constructor; cbn; tauto |].
  intros v Hv [<-|[]]. contradiction.
Qed.


Lemma names_perm (rows : list LifterRecord) :
  Permutation (names rows)
    (Array_from_Set (List.filter (fun n => negb (is_empty n)) (List.map Name rows))).
Proof. apply sort_permutation. Qed.

Lemma names_elem (rows : list LifterRecord) (n : string) :
  In n (names rows) <-> n <> "" /\ exists r, In r rows /\ Name r = n.
Proof.
  split.
  - intros H. apply (Permutation_in _ (names_perm rows)) in H.
    apply set_add_all_In in H as [[]|H]. apply filter_In in H as [H Hn].
    apply in_map_iff in H as (r & <- & Hr). split; [|eauto].
    destruct (Name r); [discriminate Hn | discriminate].
  - intros (Hn & r & Hr & <-).
    apply (Permutation_in _ (Permutation_sym (names_perm rows))).
    apply set_add_all_In. right. apply filter_In. split.
    + apply in_map. exact Hr.
    + destruct (Name r); [now contradiction Hn | reflexivity].
Qed.

(** X10: [names] holds exactly the names of the rows that are not empty;
    it is empty for no rows and never holds the empty name. *)
Theorem names_In :
  forall (rows : list LifterRecord) (n : string),
    (In n (names rows) <-> n <> "" /\ exists r, In r rows /\ Name r = n)
    /\ names [] = []
    /\ ~ In "" (names rows).
Proof.
  intros rows n. split; [apply names_elem|]. split; [reflexivity|].
  intros H. apply names_elem in H as [H _]. now contradiction H.
Qed.

Lemma sorted_NoDup_strict (l : list string) :
  StronglySorted (fun a b => default_compare a b <= 0) l -> List.NoDup l ->
  StronglySorted (fun a b => String.compare a b = Lt) l.
Proof.
  induction 1 as [|x t Ht IH Hx]; intros Hn; [constructor|].
  inversion_clear Hn as [|? ? Hnx Hnt]. constructor; [now apply IH|].
  apply List.Forall_forall. intros y Hy. rewrite List.Forall_forall in Hx.
  specialize (Hx y Hy). apply default_compare_le in Hx.
  destruct (String.compare x y) eqn:E; [|reflexivity|congruence].
  apply String.compare_eq_iff in E. subst y. contradiction.
Qed.

(** X11: [names] is in strictly ascending order of code units, hence
    without repetition. *)
Theorem names_sorted :
  forall rows : list LifterRecord,
    StronglySorted (fun a b => String.compare a b = Lt) (names rows)
    /\ List.NoDup (names rows).
Proof.
  intros rows.
  assert (Hn : List.NoDup (names rows)).
  { eapply Permutation_NoDup; [symmetry; apply names_perm|].
    apply set_add_all_NoDup. constructor. }
  split; [|exact Hn]. apply sorted_NoDup_strict; [|exact Hn].
  apply sort_ordered; [apply default_compare_total | apply default_compare_trans].
Qed.

(** X12: a name is in [names] exactly when selecting it, with the filter
    "All", gives at least one record. *)
Theorem names_filtered :
  forall (rows : list LifterRecord) (n : string),
    In n (names rows) <-> filtered rows n "All" <> [].
Proof.
  intros rows n. rewrite names_elem. split.
  - intros (Hn & r & Hr & E) Hnil.
    assert (Hin : In r (filtered rows n "All")).
    { apply filtered_In. split; [exact Hn|]. split; [exact Hr|].
      rewrite passes_All. apply String.eqb_eq. exact E. }
    rewrite Hnil in Hin. exact Hin.
  - intros H. destruct (filtered rows n "All") as [|r t] eqn:Es; [now contradiction H|].
    assert (Hin : In r (filtered rows n "All")) by (rewrite Es; now left).
    apply filtered_In in Hin as (Hn & Hr & Hp).
    split; [exact Hn|]. exists r. split; [exact Hr | exact (passes_name _ _ _ Hp)].
Qed.

Lemma first_nonempty_not_empty (r : gmap string string) (ks : list string) (v : string) :
  first_nonempty r ks = Some v -> v <> "".
Proof.
  induction ks as [|k t IH]; cbn [first_nonempty]; [discriminate|].
  destruct (r !! k) as [w|]; [|exact IH].
  destruct w; cbn [is_empty]; [exact IH|]. intros [= <-]. discriminate.
Qed.

Lemma Name_row_record (Date_parse : string -> option Z) (r : gmap string string) :
  Name (row_record Date_parse r) =
  match first_nonempty r (aliases FName) with
  | Some v => v
  | None => ""
  end.
Proof.
  cbn [aliases first_nonempty row_record Name].
  case_cells; reflexivity.
Qed.

(** X13: after ingestion, [names] holds exactly the texts that some row
    has as the first non-empty cell among Name, name and lifter. *)
Theorem names_of_ingested :
  forall (Date_parse : string -> option Z) (raw : list (gmap string string)) (n : string),
    In n (names (processCsvData Date_parse raw)) <->
    exists r, In r raw /\ first_nonempty r (aliases FName) = Some n.
Proof.
  intros dp raw n. rewrite names_elem. split.
  - intros (Hn & o & Ho & E). apply in_map_iff in Ho as (r & <- & Hr).
    exists r. split; [exact Hr|]. rewrite Name_row_record in E.
    destruct (first_nonempty r (aliases FName)); [now subst | now contradiction Hn].
  - intros (r & Hr & E). split; [apply (first_nonempty_not_empty _ _ _ E)|].
    exists (row_record dp r). split; [now apply in_map|].
    rewrite Name_row_record, E. reflexivity.
Qed.

End NamesFacts.

(** ** Records *)

Section MoreIngestionFacts.
Import JSString JSNumber JSDate JSArray Data App Reading Selection.

(** X14: two rows that agree on the columns [processCsvData] reads give
    the same record: other columns are ignored. *)
Theorem row_record_known_columns :
  forall (Date_parse : string -> option Z) (r r' : gmap string string),
    (forall k, In k known_columns -> r !! k = r' !! k) ->
    row_record Date_parse r = row_record Date_parse r'.
Proof.
  intros dp r r' H. unfold row_record.
  repeat match goal with
    | |- context [r !! ?k] =>
        rewrite (H k) by (apply list_elem_of_In, (bool_decide_unpack _); vm_compute; exact I)
    end.
  reflexivity.
Qed.

Lemma row_record_known_columns_witness :
  (forall k, In k known_columns ->
     (<["Country" := "NZ"]> row_jane_2020 : gmap string string) !! k = row_jane_2020 !! k)
  /\ row_record Date_parse_iso (<["Country" := "NZ"]> row_jane_2020)
     = row_record Date_parse_iso row_jane_2020.
Proof.
  assert (H : forall k, In k known_columns ->
     (<["Country" := "NZ"]> row_jane_2020 : gmap string string) !! k = row_jane_2020 !! k).
  { intros k Hk. apply lookup_insert_ne. intros <-.
    vm_compute in Hk.
    repeat (destruct Hk as [Hk|Hk]; [discriminate Hk|]). exact Hk. }
  split; [exact H|]. apply row_record_known_columns. exact H.
Defined.

Lemma KG_TO_LB_finite : exists m e, KG_TO_LB = S754_finite false m e.
Proof. eexists _, _. reflexivity. Qed.

Lemma mul_KG_TO_LB_not_nan (k : number) :
  isNaN k = false -> isNaN (mul k KG_TO_LB) = false.
Proof.
  destruct KG_TO_LB_finite as (m & e & ->). unfold mul.
  destruct k as [s|s| |s mk ek]; cbn [SFmul isNaN]; try reflexivity; try discriminate.
  intros _. apply binary_round_aux_not_nan. lia.
Qed.

Lemma ToNumber_toFixed2_not_nan (v : number) :
  isNaN v = false -> isNaN (ToNumber (toFixed2 v)) = false.
Proof.
  destruct v as [s|s| |s m e]; try reflexivity; try discriminate.
  intros _. destruct (at_least_1e21 m e) eqn:E.
  - unfold toFixed2. rewrite E. reflexivity.
  - rewrite ToNumber_toFixed2_finite by exact E. apply decimal_value_not_nan.
Qed.

Lemma toNumber_not_nan (v : option string) : holds_NaN (toNumber v) = false.
Proof.
  destruct (toNumber v) as [n|] eqn:E; [|reflexivity].
  apply toNumber_Some in E as (s & _ & _ & H). exact H.
Qed.

Lemma pounds_not_nan (v : option number) :
  holds_NaN v = false -> holds_NaN (pounds v) = false.
Proof.
  destruct v as [k|]; [|reflexivity]. cbn [holds_NaN pounds]. intros H.
  apply ToNumber_toFixed2_not_nan, mul_KG_TO_LB_not_nan, H.
Qed.

(** X15: no numeric field of an ingested record, kilograms and pounds
    included, is [NaN]. *)
Theorem records_hold_no_NaN :
  forall (Date_parse : string -> option Z) (raw : list (gmap string string))
         (o : LifterRecord) (v : option number),
    In o (processCsvData Date_parse raw) ->
    In v (numeric_fields o) ->
    holds_NaN v = false.
Proof.
  intros dp raw o v Ho Hv. apply in_map_iff in Ho as (r & <- & _).
  unfold numeric_fields, row_record in Hv.
  cbn [Age BodyweightKg SquatKg BenchKg DeadliftKg TotalKg
       SquatLb BenchLb DeadliftLb TotalLb In] in Hv.
  repeat (destruct Hv as [<- | Hv];
          [first [apply toNumber_not_nan | apply pounds_not_nan, toNumber_not_nan]|]).
  contradiction.
Qed.

Lemma records_hold_no_NaN_witness :
  In (row_record Date_parse_iso row_bad_squat)
     (processCsvData Date_parse_iso [row_bad_squat])
  /\ In (SquatLb (row_record Date_parse_iso row_bad_squat))
        (numeric_fields (row_record Date_parse_iso row_bad_squat))
  /\ holds_NaN (SquatLb (row_record Date_parse_iso row_bad_squat)) = false.
Proof.
  assert (H1 : In (row_record Date_parse_iso row_bad_squat)
                 (processCsvData Date_parse_iso [row_bad_squat])) by (left; reflexivity).
  assert (H2 : In (SquatLb (row_record Date_parse_iso row_bad_squat))
                 (numeric_fields (row_record Date_parse_iso row_bad_squat)))
    by (unfold numeric_fields; cbn [In]; tauto).
  split; [exact H1|]. split; [exact H2|].
  exact (records_hold_no_NaN Date_parse_iso [row_bad_squat] _ _ H1 H2).
Defined.

End MoreIngestionFacts.

(** ** Names *)

Section TrimFacts.
Import JSString Data Reading Selection.

Lemma trimStart_no_space_ahead (s : string) : no_space_ahead (trimStart s) = true.
Proof.
  induction s as [|c t IH]; [reflexivity|]. cbn [trimStart].
  destruct (is_space c) eqn:E; [exact IH|]. cbn. rewrite E. reflexivity.
Qed.

Lemma trimStart_id (s : string) : no_space_ahead s = true -> trimStart s = s.
Proof.
  destruct s as [|c t]; [reflexivity|]. cbn. destruct (is_space c); [discriminate|reflexivity].
Qed.

Lemma trimEnd_no_space_ahead (s : string) :
  no_space_ahead s = true -> no_space_ahead (trimEnd s) = true.
Proof.
  destruct s as [|c t]; [reflexivity|]. cbn [no_space_ahead trimEnd]. intros H.
  destruct (trimEnd t); [|exact H].
  destruct (is_space c) eqn:E; [reflexivity|]. cbn. rewrite E. reflexivity.
Qed.

Lemma trimEnd_idempotent (s : string) : trimEnd (trimEnd s) = trimEnd s.
Proof.
  induction s as [|c t IH]; [reflexivity|]. cbn [trimEnd].
  destruct (trimEnd t) as [|x u] eqn:E.
  - destruct (is_space c) eqn:Ec; [reflexivity|]. cbn [trimEnd]. rewrite Ec. reflexivity.
  - cbn [trimEnd]. cbn [trimEnd] in IH. rewrite IH. reflexivity.
Qed.

Lemma trim_idempotent (s : string) : trim (trim s) = trim s.
Proof.
  unfold trim.
  rewrite (trimStart_id (trimEnd (trimStart s)))
    by (apply trimEnd_no_space_ahead, trimStart_no_space_ahead).
  apply trimEnd_idempotent.
Qed.

Lemma lower_char_facts (c : ascii) :
  is_space (lower_char c) = is_space c /\ lower_char (lower_char c) = lower_char c.
Proof. destruct c as [[] [] [] [] [] [] [] []]; split; reflexivity. Qed.

Lemma toLowerCase_idempotent (s : string) : toLowerCase (toLowerCase s) = toLowerCase s.
Proof.
  unfold toLowerCase. induction s as [|c t IH]; [reflexivity|]. cbn [map_chars].
  rewrite IH, (proj2 (lower_char_facts c)). reflexivity.
Qed.

Lemma trimStart_lower (s : string) : trimStart (toLowerCase s) = toLowerCase (trimStart s).
Proof.
  unfold toLowerCase. induction s as [|c t IH]; [reflexivity|]. cbn [map_chars trimStart].
  rewrite (proj1 (lower_char_facts c)). destruct (is_space c); [exact IH | reflexivity].
Qed.

Lemma trimEnd_lower (s : string) : trimEnd (toLowerCase s) = toLowerCase (trimEnd s).
Proof.
  unfold toLowerCase. induction s as [|c t IH]; [reflexivity|]. cbn [map_chars trimEnd].
  rewrite IH, (proj1 (lower_char_facts c)).
  destruct (trimEnd t); cbn [map_chars]; [destruct (is_space c)|]; reflexivity.
Qed.

Lemma trim_lower (s : string) : trim (toLowerCase s) = toLowerCase (trim s).
Proof. unfold trim. rewrite trimStart_lower, trimEnd_lower. reflexivity. Qed.

Lemma normalizeName_steps (s : string) :
  normalizeName s = collapse_spaces (keep_chars name_char (toLowerCase (trim s))).
Proof. unfold normalizeName. destruct s; reflexivity. Qed.

(** X16: the result of [normalizeName] is in lower case, holds no
    character outside [a-z0-9] and white space, and has no run of
    white space left to collapse; from the second run on the function
    changes nothing. *)
Theorem normalizeName_result :
  forall s : string,
    toLowerCase (normalizeName s) = normalizeName s
    /\ keep_chars name_char (normalizeName s) = normalizeName s
    /\ collapse_spaces (normalizeName s) = normalizeName s
    /\ normalizeName (normalizeName (normalizeName s)) = normalizeName (normalizeName s).
Proof.
  intros s. pose proof (normalizeName_tidy s) as Ht.
  split; [exact (tidy_lower _ _ Ht)|]. split; [exact (tidy_keep _ _ Ht)|].
  split; [exact (tidy_collapse _ _ Ht)|].
  rewrite (normalizeName_twice (normalizeName s)), (normalizeName_twice s).
  apply trim_idempotent.
Qed.

(** X17: [normalizeName] gives the same key for a name and for the name
    in lower case, and for a name with and without white space around
    it. *)
Theorem normalizeName_insensitive :
  forall s : string,
    normalizeName (toLowerCase s) = normalizeName s
    /\ normalizeName (trim s) = normalizeName s.
Proof.
  intros s. rewrite !normalizeName_steps. split.
  - rewrite trim_lower, toLowerCase_idempotent. reflexivity.
  - rewrite trim_idempotent. reflexivity.
Qed.

End TrimFacts.

(** ** Cells *)

Section MoreCoercionFacts.
Import JSString JSNumber JSDate Data Reading Selection.

Lemma keep_chars_app (p : ascii -> bool) (a b : string) :
  keep_chars p (a ++ b) = keep_chars p a ++ keep_chars p b.
Proof.
  induction a as [|c a IH]; [reflexivity|].
  rewrite append_cons. cbn [keep_chars]. rewrite IH.
  destruct (p c); reflexivity.
Qed.

(** X18: a character that is not a digit, [.] or [-] can be taken out of
    a cell without changing what [toNumber] returns. *)
Theorem toNumber_ignores_other_characters :
  forall (a b : string) (c : ascii),
    numeric_char c = false ->
    toNumber (Some (a ++ String c b)) = toNumber (Some (a ++ b)).
Proof.
  intros a b c Hc. unfold toNumber.
  rewrite !keep_chars_app. cbn [keep_chars]. rewrite Hc. reflexivity.
Qed.

Lemma toNumber_ignores_other_characters_witness :
  numeric_char ","%char = false
  /\ toNumber (Some "1,234.5") = toNumber (Some "1234.5").
Proof.
  split; [reflexivity|].
  exact (toNumber_ignores_other_characters "1" "234.5" "," eq_refl).
Defined.

Lemma has_char_app (x : ascii) (a b : string) :
  has_char x (a ++ b) = has_char x a || has_char x b.
Proof.
  induction a as [|c a IH]; [reflexivity|].
  rewrite append_cons. cbn [has_char]. rewrite IH, orb_assoc. reflexivity.
Qed.

Lemma digits_value_not_digit (x : ascii) (s : string) (acc : N) :
  is_digit x = false -> has_char x s = true -> digits_value acc s = None.
Proof.
  intros Hx. revert acc. induction s as [|c t IH]; intros acc; cbn [has_char digits_value];
    [discriminate|].
  destruct (Ascii.eqb c x) eqn:E.
  - apply Ascii.eqb_eq in E. subst c. rewrite Hx. reflexivity.
  - cbn [orb]. intros H. destruct (is_digit c); [now apply IH | reflexivity].
Qed.

Lemma split_dot_parts (s : string) :
  s = fst (split_dot s) ++
      match snd (split_dot s) with
      | Some fp => String "." fp
      | None => ""
      end.
Proof.
  induction s as [|c t IH]; [reflexivity|]. cbn [split_dot].
  destruct (Ascii.eqb c ".") eqn:E.
  - apply Ascii.eqb_eq in E. subst c. reflexivity.
  - destruct (split_dot t) as [ip fp]. cbn [fst snd] in *.
    rewrite append_cons, <- IH. reflexivity.
Qed.

Lemma parse_unsigned_minus (u : string) :
  has_char "-" u = true -> parse_unsigned u = None.
Proof.
  intros H. unfold parse_unsigned. pose proof (split_dot_parts u) as E.
  destruct (split_dot u) as [ip [fp|]]; cbn [fst snd] in E.
  - rewrite E, has_char_app in H. cbn [has_char] in H.
    change (Ascii.eqb "." "-") with false in H. cbn [orb] in H.
    rewrite <- has_char_app in H.
    rewrite (digits_value_not_digit "-" (ip ++ fp) 0 eq_refl H).
    destruct (is_empty ip && is_empty fp); reflexivity.
  - rewrite append_empty_r in E. subst ip.
    rewrite (digits_value_not_digit "-" u 0 eq_refl H).
    destruct (is_empty u); reflexivity.
Qed.

Lemma split_dot_second_dot (a b : string) :
  has_char "." b = true ->
  exists fp, snd (split_dot (a ++ String "." b)) = Some fp /\ has_char "." fp = true.
Proof.
  intros Hb. induction a as [|c a IH].
  - exists b. split; [reflexivity | exact Hb].
  - rewrite append_cons. cbn [split_dot]. destruct (Ascii.eqb c ".") eqn:E.
    + exists (a ++ String "." b). split; [reflexivity|].
      rewrite has_char_app. cbn [has_char]. rewrite Ascii.eqb_refl.
      cbn. apply orb_true_r.
    + destruct IH as (fp & Hfp & Hd).
      destruct (split_dot (a ++ String "." b)) as [ip fp']. cbn [snd] in *.
      exists fp. auto.
Qed.

Lemma parse_unsigned_two_dots (a b : string) :
  has_char "." b = true -> parse_unsigned (a ++ String "." b) = None.
Proof.
  intros Hb. unfold parse_unsigned.
  destruct (split_dot_second_dot a b Hb) as (fp & Hfp & Hd).
  destruct (split_dot (a ++ String "." b)) as [ip fp']. cbn [snd] in Hfp. subst fp'.
  assert (Hne : is_empty fp = false) by (destruct fp; [discriminate Hd | reflexivity]).
  rewrite Hne, andb_false_r.
  rewrite (digits_value_not_digit "." (ip ++ fp) 0 eq_refl);
    [reflexivity | rewrite has_char_app, Hd; apply orb_true_r].
Qed.

(** X19: [toNumber] returns [null] when the cleaned text has a [-] after
    its first character or has two [.]. *)
Theorem toNumber_null_on_second_sign_or_point :
  forall (s : string) (c : ascii) (t : string),
    keep_chars numeric_char s = String c t ->
    has_char "-" t = true
    \/ (exists a b, String c t = a ++ String "." b /\ has_char "." b = true) ->
    toNumber (Some s) = None.
Proof.
  intros s c t Hk H. unfold toNumber. rewrite Hk.
  assert (E : Number (String c t) = S754_nan); [|rewrite E; reflexivity].
  unfold Number. destruct (Ascii.eqb c "-") eqn:Ec.
  - destruct H as [H | (a & b & Hab & Hb)].
    + rewrite (parse_unsigned_minus t H). reflexivity.
    + destruct a as [|x a]; cbn in Hab.
      * injection Hab as -> _. discriminate Ec.
      * injection Hab as _ ->. rewrite (parse_unsigned_two_dots a b Hb). reflexivity.
  - destruct H as [H | (a & b & Hab & Hb)].
    + rewrite parse_unsigned_minus; [reflexivity|].
      cbn [has_char]. rewrite H. apply orb_true_r.
    + rewrite Hab, (parse_unsigned_two_dots a b Hb). reflexivity.
Qed.

Lemma toNumber_null_on_second_sign_or_point_witness :
  keep_chars numeric_char "2020-01-05" = String "2" "020-01-05"
  /\ has_char "-" "020-01-05" = true
  /\ toNumber (Some "2020-01-05") = None
  /\ toNumber (Some "1.2.3") = None.
Proof.
  split; [reflexivity|]. split; [reflexivity|]. split.
  - apply (toNumber_null_on_second_sign_or_point "2020-01-05" "2" "020-01-05" eq_refl).
    left. reflexivity.
  - apply (toNumber_null_on_second_sign_or_point "1.2.3" "1" ".2.3" eq_refl).
    right. exists "1", "2.3". split; reflexivity.
Defined.

Lemma civil_year_range (z : Z) :
  0 <= fst (fst (civil_from_days z)) <= 9999 -> -146097 - 719468 <= z < 25 * 146097 - 719468.
Proof.
  unfold civil_from_days. cbv zeta.
  set (z' := z + 719468). set (era := z' / 146097).
  set (doe := z' - era * 146097).
  set (yoe := (doe - doe / 1460 + doe / 36524 - doe / 146096) / 365).
  set (doy := doe - (365 * yoe + yoe / 4 - yoe / 100)).
  set (mp := (5 * doy + 2) / 153).
  cbn [fst]. intros Hy.
  assert (Hdoe : 0 <= doe < 146097).
  { subst doe era. pose proof (Z.div_mod z' 146097). pose proof (Z.mod_pos_bound z' 146097). lia. }
  assert (Hyoe : 0 <= yoe <= 399) by (subst yoe; Z.div_mod_to_equations; lia).
  assert (Hera : -1 <= era <= 24).
  { destruct ((if mp <? 10 then mp + 3 else mp - 9) <=? 2); lia. }
  subst doe. subst z'. lia.
Qed.

(** X20: for an instant in the years 0 to 9999, [parseDate] keeps the day
    that holds the instant in UTC: the time of day is dropped, and the
    date that is kept reads back as the start of that day. *)
Theorem parseDate_keeps_the_day :
  forall (Date_parse : string -> option Z) (s : string) (t : Z),
    s <> "" ->
    Date_parse s = Some t ->
    0 <= fst (fst (civil_from_days (Day t))) <= 9999 ->
    exists (day : isodate) (t0 : Z),
      parseDate Date_parse (Some s) = Some day
      /\ time_of (Some day) = Some t0
      /\ t0 <= t < t0 + msPerDay.
Proof.
  intros dp s t Hs Ht Hy. exists (Day t), (Day t * msPerDay). split; [|split].
  - unfold parseDate. cbn [truthy]. apply is_empty_false in Hs. rewrite Hs. cbn [negb].
    rewrite Ht. unfold toISOString_slice10.
    destruct (civil_from_days (Day t)) as [[y m] d]. cbn [fst] in Hy.
    replace ((0 <=? y) && (y <=? 9999)) with true; [reflexivity|].
    symmetry. apply andb_true_iff. split; apply Z.leb_le; lia.
  - apply civil_year_range in Hy. cbn [time_of]. unfold TimeClip.
    replace (Z.abs (Day t * msPerDay) <=? maxTime) with true; [reflexivity|].
    symmetry. apply Z.leb_le. unfold msPerDay, maxTime. lia.
  - unfold Day, msPerDay.
    pose proof (Z.div_mod t 86400000). pose proof (Z.mod_pos_bound t 86400000). lia.
Qed.

Lemma parseDate_keeps_the_day_witness :
  Date_parse_iso "2020-01-05" = Some 1578182400000
  /\ exists (day : isodate) (t0 : Z),
       parseDate Date_parse_iso (Some "2020-01-05") = Some day
       /\ time_of (Some day) = Some t0
       /\ t0 <= 1578182400000 < t0 + msPerDay.
Proof.
  split; [reflexivity|].
  apply (parseDate_keeps_the_day Date_parse_iso "2020-01-05" 1578182400000).
  - discriminate.
  - reflexivity.
  - vm_compute. split; discriminate.
Defined.

(** X23: an instant in the first eleven days that a [Date] can hold
    (20 to 30 April of the year -271821) is kept by [parseDate] as a
    date that does not read back: the ten characters name the month
    only, and its first day lies ahead of the range. *)
Theorem first_days_do_not_read_back :
  forall (Date_parse : string -> option Z) (s : string) (t : Z),
    s <> "" ->
    Date_parse s = Some t ->
    - maxTime <= t < - maxTime + 11 * msPerDay ->
    parseDate Date_parse (Some s) = Some (days_from_civil (-271821) 4 1)
    /\ time_of (parseDate Date_parse (Some s)) = None.
Proof.
  intros dp s t Hs Ht Hr.
  assert (Hp : parseDate dp (Some s) = Some (toISOString_slice10 t)).
  { unfold parseDate. cbn [truthy]. apply is_empty_false in Hs. rewrite Hs. cbn [negb].
    rewrite Ht. reflexivity. }
  assert (Hday : exists k, 0 <= k < 11 /\ Day t = -100000000 + k).
  { exists (Day t + 100000000). unfold Day, msPerDay, maxTime in *.
    pose proof (Z.div_mod t 86400000). pose proof (Z.mod_pos_bound t 86400000). lia. }
  destruct Hday as (k & Hk & Hd).
  assert (Hslice : toISOString_slice10 t = days_from_civil (-271821) 4 1).
  { unfold toISOString_slice10. rewrite Hd.
    assert (Ek : k = 0 \/ k = 1 \/ k = 2 \/ k = 3 \/ k = 4 \/ k = 5 \/ k = 6
                 \/ k = 7 \/ k = 8 \/ k = 9 \/ k = 10) by lia.
    repeat (destruct Ek as [-> | Ek]; [vm_compute; reflexivity|]).
    subst k. vm_compute. reflexivity. }
  rewrite Hp, Hslice. split; reflexivity.
Qed.

Lemma first_days_do_not_read_back_witness :
  parseDate Date_parse_expanded (Some "-271821-04-20")
  = Some (days_from_civil (-271821) 4 1)
  /\ time_of (parseDate Date_parse_expanded (Some "-271821-04-20")) = None.
Proof.
  apply (first_days_do_not_read_back Date_parse_expanded "-271821-04-20" (- maxTime)).
  - discriminate.
  - reflexivity.
  - vm_compute. split; [discriminate | reflexivity].
Defined.

End MoreCoercionFacts.

(** ** Whole numbers are read exactly *)

Section WholeNumbers.
Import JSString JSNumber Data Reading.

Lemma Zdigits2_ge (m k : Z) : 0 < k -> 2 ^ (k - 1) <= m -> k <= Zdigits2 m.
Proof.
  intros Hk Hm.
  assert (0 < 2 ^ (k - 1)) by (apply Z.pow_pos_nonneg; lia).
  pose proof (Zdigits2_gt m ltac:(lia)) as Hlt.
  pose proof (Zdigits2_nonneg m).
  destruct (Z_lt_le_dec (Zdigits2 m) k) as [Hc|Hc]; [|exact Hc]. exfalso.
  assert (2 ^ Zdigits2 m <= 2 ^ (k - 1)) by (apply Z.pow_le_mono_r; lia).
  lia.
Qed.

Lemma Zdigits2_eq (m k : Z) : 0 < k -> 2 ^ (k - 1) <= m < 2 ^ k -> Zdigits2 m = k.
Proof.
  intros Hk [Hlo Hhi].
  assert (0 < 2 ^ (k - 1)) by (apply Z.pow_pos_nonneg; lia).
  pose proof (Zdigits2_le m k ltac:(lia) ltac:(lia) Hhi).
  pose proof (Zdigits2_ge m k Hk Hlo). lia.
Qed.

(** A mantissa of 54 bits whose last bit is 0, with nothing left over,
    is rounded to its 53 leading bits. *)
Lemma binary_round_aux_even (neg : bool) (r : positive) (e : Z) :
  Zdigits2 (Zpos r) = 53 -> -1075 <= e <= 970 ->
  binary_round_aux prec emax neg (Zpos r~0) e loc_Exact = S754_finite neg r (e + 1).
Proof.
  intros Hd He.
  assert (Hd2 : Zdigits2 (Zpos r~0) = 54).
  { cbn [Zdigits2 digits2_pos] in *. rewrite Pos2Z.inj_succ. lia. }
  unfold binary_round_aux, shr_fexp.
  rewrite Hd2. unfold fexp, emin, prec, emax.
  replace (Z.max (54 + e - 53) (3 - 1024 - 53) - e) with 1 by lia.
  cbn [shr_record_of_loc shr SpecFloat.iter_pos shr_1 orb loc_of_shr_record
       round_nearest_even shr_m].
  rewrite Hd.
  replace (Z.max (53 + (e + 1) - 53) (3 - 1024 - 53) - (e + 1)) with 0 by lia.
  cbn [shr shr_m].
  replace (e + 1 <=? 1024 - 53) with true by (symmetry; apply Z.leb_le; lia).
  reflexivity.
Qed.


Lemma parse_decimal (n : N) : parse_unsigned (decimal n) = Some (n, O).
Proof.
  unfold parse_unsigned, decimal.
  rewrite digits_of_split. cbn [split_dot fst snd]. rewrite append_empty_r.
  destruct (digits_of_head (N.to_nat (N.log2 n)) n "") as (c & t & Hh & _).
  rewrite Hh at 1. cbn [is_empty].
  rewrite digits_of_value by apply log2_fuel. reflexivity.
Qed.

Lemma Number_decimal (neg : bool) (n : N) :
  Number ((if neg then "-" else "") ++ decimal n) = decimal_value neg n 0.
Proof.
  pose proof (parse_decimal n) as Hp.
  destruct neg.
  - change ("-" ++ decimal n)%string with (String "-" (decimal n)).
    unfold Number. rewrite Ascii.eqb_refl, Hp. reflexivity.
  - change ("" ++ decimal n)%string with (decimal n).
    destruct (digits_of_head (N.to_nat (N.log2 n)) n "") as (c & t & Hh & Hm).
    rewrite (Number_unsigned (decimal n) c t Hh Hm), Hp. reflexivity.
Qed.

(** A whole number below [2^53] divided by one is that number: its
    binary digits, shifted up to fill the 53 places. *)
Lemma round_quotient_one (neg : bool) (p : positive) :
  Zpos p < 2 ^ 53 ->
  exists m e, round_quotient neg p 1 = S754_finite neg m e
              /\ e <= 0 /\ Zpos m = Zpos p * 2 ^ (- e).
Proof.
  intros Hp.
  set (d := Zdigits2 (Zpos p)).
  assert (Hd1 : 1 <= d) by (apply Zdigits2_ge; [lia | change (2 ^ (1 - 1)) with 1; lia]).
  assert (Hd53 : d <= 53) by (apply Zdigits2_le; lia).
  assert (Hlt : Zpos p < 2 ^ d) by (apply Zdigits2_gt; lia).
  assert (Hge : 2 ^ (d - 1) <= Zpos p).
  { destruct (Z_lt_le_dec (Zpos p) (2 ^ (d - 1))) as [Hc|Hc]; [|exact Hc].
    pose proof (Zdigits2_le (Zpos p) (d - 1) ltac:(lia) ltac:(lia) Hc). lia. }
  set (r := Z.to_pos (Zpos p * 2 ^ (53 - d))).
  assert (H2 : 0 < 2 ^ (53 - d)) by (apply Z.pow_pos_nonneg; lia).
  assert (Hr : Zpos r = Zpos p * 2 ^ (53 - d)) by (subst r; rewrite Z2Pos.id; nia).
  assert (Hsplit : 2 ^ 53 = 2 ^ d * 2 ^ (53 - d)).
  { rewrite <- Z.pow_add_r by lia. f_equal. lia. }
  assert (Hsplit' : 2 ^ 52 = 2 ^ (d - 1) * 2 ^ (53 - d)).
  { rewrite <- Z.pow_add_r by lia. f_equal. lia. }
  assert (Hrd : Zdigits2 (Zpos r) = 53).
  { apply Zdigits2_eq; [lia|]. change (53 - 1) with 52. rewrite Hr.
    revert Hsplit Hsplit'. generalize (2 ^ 53) (2 ^ 52) (2 ^ (53 - d)) (2 ^ (d - 1)) (2 ^ d) H2 Hlt Hge.
    intros; nia. }
  exists r, (d - 53). split; [|split; [lia|]].
  - unfold round_quotient, SFdiv, SFdiv_core_binary.
    change (Zdigits2 (Zpos 1)) with 1. fold d.
    unfold fexp, emin, prec, emax.
    replace (Z.min (Z.max (d + 0 - (1 + 0) - 53) (3 - 1024 - 53)) (0 - 0)) with (d - 54) by lia.
    replace (0 - 0 - (d - 54)) with (54 - d) by lia.
    assert (Hs : exists k, 54 - d = Zpos k) by (destruct (54 - d) eqn:E; try lia; eauto).
    destruct Hs as (k & Hk). rewrite Hk.
    assert (Hq : Z.shiftl (Zpos p) (Zpos k) = Zpos r~0).
    { rewrite Z.shiftl_mul_pow2 by lia. rewrite <- Hk.
      replace (54 - d) with (1 + (53 - d)) by lia.
      rewrite Z.pow_add_r by lia. change (2 ^ 1) with 2.
      replace (Zpos r~0) with (2 * Zpos r) by reflexivity. rewrite Hr. ring. }
    rewrite Hq.
    assert (Hdiv : Z.div_eucl (Zpos r~0) 1 = (Zpos r~0, 0)).
    { pose proof (Z.div_1_r (Zpos r~0)) as Hq1.
      pose proof (Z.mod_1_r (Zpos r~0)) as Hr1.
      unfold Z.div, Z.modulo in Hq1, Hr1.
      destruct (Z.div_eucl (Zpos r~0) 1) as [q0 r0]. congruence. }
    change IntDef.Z.div_eucl with Z.div_eucl. rewrite Hdiv.
    change (new_location 1 0) with loc_Exact.
    rewrite xorb_false_r.
    change 53 with prec at 1. change 1024 with emax.
    rewrite binary_round_aux_even by (exact Hrd || lia).
    f_equal. lia.
  - rewrite Hr. f_equal. f_equal. lia.
Qed.


Lemma real_value_whole (m : positive) (e : Z) (p : positive) :
  e <= 0 -> Zpos m = Zpos p * 2 ^ (- e) -> (real_value m e == inject_Z (Zpos p))%Q.
Proof.
  intros He Hm. unfold real_value.
  destruct (0 <=? e) eqn:E.
  - apply Z.leb_le in E. assert (e = 0) by lia. subst e.
    change (- 0) with 0 in Hm. change (2 ^ 0) with 1 in *. rewrite Hm.
    unfold Qeq, inject_Z. cbn [Qnum Qden]. ring.
  - assert (H2 : 0 < 2 ^ (- e)) by (apply Z.pow_pos_nonneg; lia).
    unfold Qeq, inject_Z. cbn [Qnum Qden]. rewrite Z2Pos.id by exact H2.
    rewrite Hm. ring.
Qed.

(** X21. [toNumber] reads whole numbers exactly: a cell whose
    characters, once those that are no digit, [.] or [-] are left out,
    are the decimal digits of a whole number below [2^53], with or
    without a [-] in front, is read as a finite number of that sign
    whose value is exactly that whole number. *)
Theorem toNumber_whole_number (s : string) (neg : bool) (p : positive) :
  keep_chars numeric_char s = ((if neg then "-" else "") ++ decimal (Npos p))%string ->
  Zpos p < 2 ^ 53 ->
  exists m e, toNumber (Some s) = Some (S754_finite neg m e)
              /\ (real_value m e == inject_Z (Zpos p))%Q.
Proof.
  intros Hs Hp.
  destruct (round_quotient_one neg p Hp) as (m & e & Hq & He & Hm).
  exists m, e. split; [|exact (real_value_whole m e p He Hm)].
  unfold toNumber. rewrite Hs, Number_decimal.
  unfold decimal_value. change (pow10 0) with 1%positive. rewrite Hq. reflexivity.
Qed.

Lemma toNumber_whole_number_witness :
  exists m e, toNumber (Some "1,250 kg") = Some (S754_finite false m e)
              /\ (real_value m e == inject_Z 1250)%Q.
Proof.
  apply (toNumber_whole_number "1,250 kg" false 1250%positive).
  - reflexivity.
  - reflexivity.
Defined.

End WholeNumbers.
